(** * Merry-Christmas: gesture pipeline and morph engine

    A shallow embedding of the TypeScript sources

      - [src/types.ts]                         (enumerations),
      - [src/components/HandController.tsx]    (classifier, debounce, detect),
      - [src/App.tsx]                          (handleGesture),
      - [src/components/ArixChristmasTree.tsx] (tree morph, per-frame update),
      - [src/components/Scene.tsx]             (snow particles, photo layout),
      - [src/components/Experience.tsx]        (moving light),

    followed by the properties of the specification, stated on it.

    Numbers.  A JavaScript number is an IEEE-754 double.  The classifier
    only subtracts, multiplies, adds and compares coordinates, and its
    result can turn on the last bit: it is embedded over binary64 itself,
    the primitive floats, with their rounding, where it computes.  The
    animation code needs [exp], [sin], [cos] and [PI] and is embedded over
    the reals [R]; there rounding is not modelled, and a statement over [R]
    describes the program up to rounding.  The frame counter of the
    debounce logic is a [nat] (a double counts exactly up to 2^53), the
    video time a rational. *)

From Stdlib Require Import PrimFloat FloatOps SpecFloat.
From Stdlib Require Import List Bool Arith ZArith QArith String Lia.
From Stdlib Require Import Reals Lra.
Import ListNotations.

#[local] Set Warnings "-inexact-float".

(** ** Option as the exception monad

    [None] stands for an uncaught [TypeError] (reading a property of
    [undefined]). *)

Definition obind {A B : Type} (m : option A) (f : A -> option B) : option B :=
  match m with
  | Some a => f a
  | None => None
  end.

Declare Scope js_scope.
Delimit Scope js_scope with js.
Notation "x <- m ;; k" := (obind m (fun x => k))
  (at level 61, m at next level, right associativity) : js_scope.

(** [for (let i = i0; i < i0 + n; i++) body] over a loop state. *)
Fixpoint for_loop {S : Type} (n i : nat) (body : nat -> S -> option S) (s : S)
  : option S :=
  match n with
  | O => Some s
  | Datatypes.S n' => obind (body i s) (for_loop n' (Datatypes.S i) body)
  end.

(** ** src/types.ts *)

Inductive TreeState : Type :=
| ASSEMBLED
| SCATTERED
| PHOTO_ZOOM.

Inductive HandGesture : Type :=
| NONE
| FIST
| OPEN
| PINCH.

(** [===] on gesture symbols. *)
Definition HandGesture_eqb (a b : HandGesture) : bool :=
  match a, b with
  | NONE, NONE | FIST, FIST | OPEN, OPEN | PINCH, PINCH => true
  | _, _ => false
  end.

Definition TreeState_eqb (a b : TreeState) : bool :=
  match a, b with
  | ASSEMBLED, ASSEMBLED | SCATTERED, SCATTERED | PHOTO_ZOOM, PHOTO_ZOOM => true
  | _, _ => false
  end.

(** ** src/components/HandController.tsx *)

Module HandController.

Local Open Scope float_scope.
Local Open Scope js_scope.

(** One normalized landmark; the classifier reads [x] and [y] only.  The
    coordinates are doubles. *)
Record Point : Type := mkPoint { px : float; py : float }.

(** [landmarks[k]]: [undefined] past the end of the array. *)
Definition at_index (landmarks : list Point) (k : nat) : option Point :=
  nth_error landmarks k.

(** [x ** 2], taken as the correctly rounded product of [x] with itself. *)
Definition sqr (x : float) : float := x * x.

(** [const dSq = (p1, p2) => (p1.x - p2.x)**2 + (p1.y - p2.y)**2]; reading
    [.x] of [undefined] throws.  Each operation rounds to binary64. *)
Definition dSq (p1 p2 : option Point) : option float :=
  a <- p1 ;; b <- p2 ;;
  Some (sqr (px a - px b) + sqr (py a - py b)).

Definition tips : list nat := [8; 12; 16; 20]%nat.
Definition bases : list nat := [5; 9; 13; 17]%nat.

(** [tips[i]] for [i < 4]. *)
Definition idx (l : list nat) (i : nat) : nat := nth i l O.

(** Body of the first loop: [foldedCount++] when the tip is closer to the
    wrist than 1.2 times its base. *)
Definition folded_body (landmarks : list Point) (wrist : option Point)
  (i : nat) (foldedCount : nat) : option nat :=
  dt <- dSq (at_index landmarks (idx tips i)) wrist ;;
  db <- dSq (at_index landmarks (idx bases i)) wrist ;;
  Some (if dt <? db * 1.2 then Datatypes.S foldedCount else foldedCount).

(** Body of the second loop: [extendedCount++] when the tip is farther
    from the wrist than 1.5 times its base. *)
Definition extended_body (landmarks : list Point) (wrist : option Point)
  (i : nat) (extendedCount : nat) : option nat :=
  dt <- dSq (at_index landmarks (idx tips i)) wrist ;;
  db <- dSq (at_index landmarks (idx bases i)) wrist ;;
  Some (if db * 1.5 <? dt then Datatypes.S extendedCount else extendedCount).

Definition foldedCount (landmarks : list Point) : option nat :=
  for_loop 4 0 (folded_body landmarks (at_index landmarks 0)) O.

Definition extendedCount (landmarks : list Point) : option nat :=
  for_loop 4 0 (extended_body landmarks (at_index landmarks 0)) O.

(** [thumbTucked]: computed before the FIST test and never read; [||]
    evaluates its right operand only when the left one is false. *)
Definition thumbTucked (landmarks : list Point) : option bool :=
  d45 <- dSq (at_index landmarks 4) (at_index landmarks 5) ;;
  if d45 <? 0.005 then Some true
  else d49 <- dSq (at_index landmarks 4) (at_index landmarks 9) ;;
       Some (d49 <? 0.005).

Definition analyzeGesture (landmarks : list Point) : option HandGesture :=
  folded <- foldedCount landmarks ;;
  _ <- thumbTucked landmarks ;;
  if (3 <=? folded)%nat then Some FIST
  else
    extended <- extendedCount landmarks ;;
    if (3 <=? extended)%nat then Some OPEN
    else
      pinchDist <- dSq (at_index landmarks 4) (at_index landmarks 8) ;;
      if pinchDist <? 0.002 then Some PINCH
      else Some NONE.

(** The two refs of the component that [detect] reads and writes:
    [lastGestureRef] and [gestureFramesRef]. *)
Record Refs : Type := mkRefs {
  lastGestureRef : HandGesture;
  gestureFramesRef : nat
}.

(** [useRef(HandGesture.NONE)], [useRef(0)]. *)
Definition initialRefs : Refs := mkRefs NONE 0.

(** The object handed to [onGesture]: [{ x: palmX, y: palmY, landmarks }]. *)
Record HandData : Type := mkHandData {
  hd_x : float;
  hd_y : float;
  hd_landmarks : list Point
}.

(** Lines 58-66: the debounce logic, returning the refs after it and
    [finalGesture].  Both arms of the conditional on [> 2] are
    [lastGestureRef.current]. *)
Definition debounce (refs : Refs) (rawGesture : HandGesture)
  : Refs * HandGesture :=
  let refs' :=
    if HandGesture_eqb rawGesture (lastGestureRef refs)
    then mkRefs (lastGestureRef refs) (Datatypes.S (gestureFramesRef refs))
    else mkRefs rawGesture 0 in
  let finalGesture :=
    if (2 <? gestureFramesRef refs')%nat
    then lastGestureRef refs'
    else lastGestureRef refs' in
  (refs', finalGesture).

(** Lines 54-75 of [detect]: what one detection result does.
    [result.landmarks] is absent ([None]) or the list of detected hands.
    The value is the refs afterwards and the pair passed to [onGesture]. *)
Definition detect (refs : Refs) (result_landmarks : option (list (list Point)))
  : option (Refs * (HandGesture * option HandData)) :=
  match result_landmarks with
  | Some (landmarks :: _) =>
      rawGesture <- analyzeGesture landmarks ;;
      let '(refs', finalGesture) := debounce refs rawGesture in
      wrist <- at_index landmarks 0 ;;
      Some (refs', (finalGesture,
                    Some (mkHandData (px wrist) (py wrist) landmarks)))
  | _ => Some (refs, (NONE, None))
  end.

(** The debounce logic run over a stream of raw symbols: the refs at the
    end and the symbols it put out, in order. *)
Fixpoint debounce_run (refs : Refs) (raws : list HandGesture)
  : Refs * list HandGesture :=
  match raws with
  | [] => (refs, [])
  | raw :: rest =>
      let '(refs', out) := debounce refs raw in
      let '(refs'', outs) := debounce_run refs' rest in
      (refs'', out :: outs)
  end.

End HandController.

(** ** src/App.tsx *)

Module App.

(** [PhotoData] of src/types.ts; positions are triples of numbers. *)
Record PhotoData : Type := mkPhotoData {
  id : string;
  url : string;
  scatterPosition : R * R * R;
  treePosition : R * R * R
}.

(** The four [useState] cells of the component.  The photos cell holds
    an array, and React and [useMemo] compare arrays by identity, not by
    content: [photosRef] is the identity of the array in the cell, the
    arrays this cell has held being numbered in the order of their
    allocation. *)
Record State : Type := mkState {
  treeState : TreeState;
  gesture : HandGesture;
  handData : option (float * float);
  photos : list PhotoData;
  photosRef : nat
}.

(** [useState(TreeState.ASSEMBLED)], [useState(HandGesture.NONE)],
    [useState(null)], [useState([])]. *)
Definition initialState : State := mkState ASSEMBLED NONE None [] 0.

(** [handleGesture(detectedGesture, data)], lines 26-39. *)
Definition handleGesture (st : State) (detectedGesture : HandGesture)
  (data : option HandController.HandData) : State :=
  let gesture' := detectedGesture in
  let handData' :=
    match data with
    | Some d => Some (HandController.hd_x d, HandController.hd_y d)
    | None => None
    end in
  let treeState' :=
    if HandGesture_eqb detectedGesture FIST then ASSEMBLED
    else if HandGesture_eqb detectedGesture OPEN then SCATTERED
    else treeState st in
  mkState treeState' gesture' handData' (photos st) (photosRef st).

(** [handleFileUpload], lines 41-51: one [PhotoData] per chosen file,
    appended to the photos.  A file is given by the id drawn for it and
    its object URL; [e.target.files] may be null, and then nothing is set.
    Otherwise [setPhotos(prev => [...prev, ...newPhotos])] stores a newly
    allocated array, also when no file was chosen and its content is that
    of the old one. *)
Definition handleFileUpload (st : State) (files : option (list (string * string)))
  : State :=
  match files with
  | Some fs =>
      let newPhotos :=
        map (fun f => mkPhotoData (fst f) (snd f) (0, 0, 0)%R (0, 0, 0)%R) fs in
      mkState (treeState st) (gesture st) (handData st)
              (photos st ++ newPhotos) (S (photosRef st))
  | None => st
  end.

(** One detection result going through [detect] and its [onGesture]
    callback, which is [handleGesture]. *)
Definition onDetection (refs : HandController.Refs) (st : State)
  (result_landmarks : option (list (list HandController.Point)))
  : option (HandController.Refs * State) :=
  match HandController.detect refs result_landmarks with
  | Some (refs', (g, data)) => Some (refs', handleGesture st g data)
  | None => None
  end.

(** The scene state after a stream of stabilized gestures. *)
Definition handleGestures (st : State) (gs : list HandGesture) : State :=
  fold_left (fun s g => handleGesture s g None) gs st.

End App.

(** ** three.js, as far as the sources call it

    [THREE] is the three.js library the components import
    ([import * as THREE from 'three']); it is not part of the repository.
    The definitions below are the library's own (MathUtils.js,
    Vector3.js, Object3D.js), over the reals. *)

Module THREE.

Local Open Scope R_scope.

Module MathUtils.

(** [lerp(x, y, t) = (1 - t) * x + t * y]. *)
Definition lerp (x y t : R) : R := (1 - t) * x + t * y.

(** [damp(x, y, lambda, dt) = lerp(x, y, 1 - Math.exp(-lambda * dt))]:
    the third argument is a rate, a higher [lambda] moves faster. *)
Definition damp (x y lambda dt : R) : R :=
  lerp x y (1 - exp (- lambda * dt)).

End MathUtils.

Record Vector3 : Type := mkVector3 { vx : R; vy : R; vz : R }.

(** [this.lerpVectors(v1, v2, alpha)]: [v1 + (v2 - v1) * alpha]. *)
Definition lerpVectors (v1 v2 : Vector3) (alpha : R) : Vector3 :=
  mkVector3 (vx v1 + (vx v2 - vx v1) * alpha)
            (vy v1 + (vy v2 - vy v1) * alpha)
            (vz v1 + (vz v2 - vz v1) * alpha).

(** [this.lerp(v, alpha)]: [this += (v - this) * alpha]. *)
Definition Vector3_lerp (this v : Vector3) (alpha : R) : Vector3 :=
  mkVector3 (vx this + (vx v - vx this) * alpha)
            (vy this + (vy v - vy this) * alpha)
            (vz this + (vz v - vz this) * alpha).

(** The orientation of an object: Euler angles written by
    [rotation.set], or the orientation [lookAt] derives from the object's
    position and the target (kept symbolic). *)
Inductive Orientation : Type :=
| Euler (x y z : R)
| LookingAt (eye target : Vector3).

(** The fields of an [Object3D] that the sources write.  [updateMatrix]
    composes the matrix from exactly these three, so the matrix stored by
    [setMatrixAt] is represented by the object's fields at that moment. *)
Record Object3D : Type := mkObject3D {
  position : Vector3;
  rotation : Orientation;
  scale : Vector3
}.

(** [new THREE.Object3D()]. *)
Definition newObject3D : Object3D :=
  mkObject3D (mkVector3 0 0 0) (Euler 0 0 0) (mkVector3 1 1 1).

Definition position_set (o : Object3D) (x y z : R) : Object3D :=
  mkObject3D (mkVector3 x y z) (rotation o) (scale o).

Definition rotation_set (o : Object3D) (x y z : R) : Object3D :=
  mkObject3D (position o) (Euler x y z) (scale o).

Definition scale_setScalar (o : Object3D) (s : R) : Object3D :=
  mkObject3D (position o) (rotation o) (mkVector3 s s s).

Definition lookAt (o : Object3D) (x y z : R) : Object3D :=
  mkObject3D (position o) (LookingAt (position o) (mkVector3 x y z)) (scale o).

(** [color.setHSL(h, s, l)]. *)
Record Color : Type := HSL { hue : R; saturation : R; lightness : R }.

End THREE.

(** [array.forEach((data, i) => ...)] over a shared [dummy] object: the
    callback rewrites the dummy, [dummy.updateMatrix()] and
    [setMatrixAt(i, dummy.matrix)] store a copy for instance [i].  The
    value is the stored matrices, in order, and the dummy afterwards. *)
Fixpoint forEach_dummy {E : Type} (f : E -> nat -> THREE.Object3D -> THREE.Object3D)
  (i : nat) (data : list E) (dummy : THREE.Object3D)
  : list THREE.Object3D * THREE.Object3D :=
  match data with
  | [] => ([], dummy)
  | d :: rest =>
      let dummy' := f d i dummy in
      let '(ms, dummy'') := forEach_dummy f (S i) rest dummy' in
      (dummy' :: ms, dummy'')
  end.

(** [a < b] and [a > b] on reals, as booleans. *)
Definition Rltb (a b : R) : bool := if Rlt_dec a b then true else false.
Definition Rgtb (a b : R) : bool := Rltb b a.

(** ** src/components/ArixChristmasTree.tsx *)

Module ArixChristmasTree.

Import THREE.
Local Open Scope R_scope.

(** The elements of [needlesData], [ribbonData] and of the three ornament
    arrays ([goldData], [redData], [lightsData]). *)
Record Needle : Type := mkNeedle {
  n_scatterPosition : Vector3;
  n_treePosition : Vector3;
  n_rotation : Vector3;
  n_scale : R
}.

Record RibbonBit : Type := mkRibbonBit {
  r_scatterPosition : Vector3;
  r_treePosition : Vector3;
  r_scale : R
}.

Record Ornament : Type := mkOrnament {
  o_scatterPosition : Vector3;
  o_treePosition : Vector3;
  o_scale : R;
  o_phase : R
}.

(** Lines 141-144: the morph progress after one frame. *)
Definition target (state : TreeState) : R :=
  if TreeState_eqb state ASSEMBLED then 1 else 0.

Definition smoothTime (state : TreeState) : R :=
  if TreeState_eqb state ASSEMBLED then 2.0 else 0.8.

Definition morphProgress_step (state : TreeState) (morphProgress delta : R) : R :=
  MathUtils.damp morphProgress (target state) (smoothTime state) delta.

(** The progress after a run of frames with the given deltas. *)
Definition morphProgress_run (state : TreeState) (morphProgress : R)
  (deltas : list R) : R :=
  fold_left (morphProgress_step state) deltas morphProgress.

(** The position every group but the ribbon writes: a componentwise
    [lerp] from the scatter to the tree position. *)
Definition lerp_position (dummy : Object3D) (scatterPosition treePosition : Vector3)
  (t : R) : Object3D :=
  position_set dummy
    (MathUtils.lerp (vx scatterPosition) (vx treePosition) t)
    (MathUtils.lerp (vy scatterPosition) (vy treePosition) t)
    (MathUtils.lerp (vz scatterPosition) (vz treePosition) t).

(** Lines 152-176, the callback of [needlesData.forEach]. *)
Definition update_needle (t time : R) (data : Needle) (i : nat)
  (dummy : Object3D) : Object3D :=
  let dummy := lerp_position dummy (n_scatterPosition data) (n_treePosition data) t in
  let dummy :=
    if Rgtb t 0.8
    then rotation_set dummy
           (vx (n_rotation data) + sin (time + vy (n_treePosition data)) * 0.05)
           (vy (n_rotation data))
           (vz (n_rotation data) + cos (time + vy (n_treePosition data)) * 0.05)
    else rotation_set dummy time time time in
  scale_setScalar dummy (n_scale data).

(** Lines 182-201, the callback of [ribbonData.forEach]. *)
Definition flowOffset (time : R) (i : nat) : R :=
  sin (time * 2 + INR i * 0.1) * 0.05.

Definition update_ribbon (t time : R) (data : RibbonBit) (i : nat)
  (dummy : Object3D) : Object3D :=
  let dummy :=
    position_set dummy
      (MathUtils.lerp (vx (r_scatterPosition data)) (vx (r_treePosition data)) t)
      (MathUtils.lerp (vy (r_scatterPosition data))
                      (vy (r_treePosition data) + flowOffset time i) t)
      (MathUtils.lerp (vz (r_scatterPosition data)) (vz (r_treePosition data)) t) in
  let scale := if Rgtb t 0.1 then sin (time * 5 + INR i) * 0.2 + 0.8 else 0.5 in
  let dummy := scale_setScalar dummy (scale * 0.8) in
  lookAt dummy 0 0 0.

(** Lines 208-219, the callback inside [updateOrnaments]. *)
Definition update_ornament (t time : R) (data : Ornament) (i : nat)
  (dummy : Object3D) : Object3D :=
  let dummy := lerp_position dummy (o_scatterPosition data) (o_treePosition data) t in
  let dummy := rotation_set dummy (time * 0.5) (o_phase data) 0 in
  scale_setScalar dummy (o_scale data).

(** Lines 229-244, the callback of [lightsData.forEach]; it writes no
    rotation, the dummy keeps the one it has. *)
Definition blink (time phase : R) : R := sin (time * 4 + phase) * 0.5 + 0.5.

Definition update_light (t time : R) (data : Ornament) (i : nat)
  (dummy : Object3D) : Object3D :=
  let dummy := lerp_position dummy (o_scatterPosition data) (o_treePosition data) t in
  scale_setScalar dummy (0.4 + blink time (o_phase data) * 0.4).

Definition light_color (time : R) (data : Ornament) : Color :=
  HSL 0.12 1.0 (0.5 + blink time (o_phase data) * 0.5).

(** Lines 250-258: the star group keeps its own object across frames;
    only [rotation.y] is assigned. *)
Definition update_star (t time : R) (star : Object3D) : Object3D :=
  let star := position_set star 0 (MathUtils.lerp 20 5.2 t) 0 in
  let star := scale_setScalar star (MathUtils.lerp 0.1 1.2 t) in
  match rotation star with
  | Euler x _ z => rotation_set star x (time * 0.5) z
  | LookingAt _ _ => star
  end.

(** The arrays built once by [useMemo]. *)
Record Data : Type := mkData {
  needlesData : list Needle;
  ribbonData : list RibbonBit;
  goldData : list Ornament;
  redData : list Ornament;
  lightsData : list Ornament
}.

(** What one frame writes: the instance matrices of the five meshes, the
    instance colors of the lights, and the star. *)
Record Frame : Type := mkFrame {
  f_morphProgress : R;
  f_needles : list Object3D;
  f_ribbon : list Object3D;
  f_gold : list Object3D;
  f_red : list Object3D;
  f_lights : list Object3D;
  f_lightColors : list Color;
  f_star : Object3D
}.

(** The [useFrame] callback, lines 136-259, with every ref mounted.
    [time] is [clock.getElapsedTime()].  One [dummy] serves all groups. *)
Definition useFrame (state : TreeState) (data : Data) (morphProgress : R)
  (star : Object3D) (time delta : R) : Frame :=
  let t := morphProgress_step state morphProgress delta in
  let dummy := newObject3D in
  let '(needles, dummy) := forEach_dummy (update_needle t time) 0 (needlesData data) dummy in
  let '(ribbon, dummy) := forEach_dummy (update_ribbon t time) 0 (ribbonData data) dummy in
  let '(gold, dummy) := forEach_dummy (update_ornament t time) 0 (goldData data) dummy in
  let '(red, dummy) := forEach_dummy (update_ornament t time) 0 (redData data) dummy in
  let '(lights, dummy) := forEach_dummy (update_light t time) 0 (lightsData data) dummy in
  mkFrame t needles ribbon gold red lights
          (map (light_color time) (lightsData data))
          (update_star t time star).

End ArixChristmasTree.

(** ** src/components/Scene.tsx *)

Module Scene.

Import THREE.
Local Open Scope R_scope.

(** [Math.random()]: the calls made during a computation return the
    successive values of an unknown sequence [rng]; a computation carries
    the number of values drawn so far. *)
Definition Math_random (rng : nat -> R) (drawn : nat) : R * nat :=
  (rng drawn, S drawn).

(** [a % b] on numbers: the remainder has the sign of the dividend. *)
Definition trunc (x : R) : Z :=
  if Rle_dec 0 x then Zfloor x else (- Zfloor (- x))%Z.

Definition js_rem (a b : R) : R := a - b * IZR (trunc (a / b)).

(** An element of [particles]. *)
Record Particle : Type := mkParticle {
  initialPos : Vector3;
  velocity : R;
  p_scale : R;
  p_color : string;
  offset : R
}.

(** Lines 84-86: the scene's own progress runs the other way round, 0
    when assembled and 1 when scattered, with a fixed rate of 2. *)
Definition target (treeState : TreeState) : R :=
  if TreeState_eqb treeState ASSEMBLED then 0 else 1.

Definition progress_step (treeState : TreeState) (progress delta : R) : R :=
  MathUtils.damp progress (target treeState) 2 delta.

(** Lines 114-147, the callback of [particles.forEach]: the dummy and
    the number of random values drawn, before and after. *)
Definition update_particle (rng : nat -> R) (t time : R) (p : Particle)
  (st : Object3D * nat) : Object3D * nat :=
  let '(dummy, drawn) := st in
  let x := vx (initialPos p) in
  let y := vy (initialPos p) in
  let z := vz (initialPos p) in
  let '(x, y, z, drawn) :=
    if Rltb t 0.5 then
      let y := vy (initialPos p)
               - js_rem (time * velocity p * 20 + offset p) 30 in
      let y := if Rltb y (-15) then y + 30 else y in
      let x := x + sin (time + offset p) * 0.5 in
      let z := z + cos (time + offset p) * 0.5 in
      (x, y, z, drawn)
    else
      let explosionFactor := t * 15 in
      let x := vx (initialPos p) + (vx (initialPos p) / 10) * explosionFactor in
      let '(r, drawn) := Math_random rng drawn in
      let y := vy (initialPos p) + (r - 0.5) * explosionFactor in
      let z := vz (initialPos p) + (vz (initialPos p) / 10) * explosionFactor in
      (x, y, z, drawn) in
  let dummy := position_set dummy x y z in
  let dummy := rotation_set dummy time time time in
  let dummy := scale_setScalar dummy (p_scale p * (1 + t)) in
  (dummy, drawn).

(** The whole [particles.forEach]: the matrices stored, in order, and the
    state afterwards. *)
Fixpoint update_particles (rng : nat -> R) (t time : R) (ps : list Particle)
  (st : Object3D * nat) : list Object3D * (Object3D * nat) :=
  match ps with
  | [] => ([], st)
  | p :: rest =>
      let st' := update_particle rng t time p st in
      let '(ms, st'') := update_particles rng t time rest st' in
      (fst st' :: ms, st'')
  end.

(** An element of [photoLayout]. *)
Record Layout : Type := mkLayout {
  scatterPos : Vector3;
  treePos : Vector3;
  l_id : string
}.

(** Lines 66-74: the tree position of the photo at index [i] when
    [uploadedPhotos.length] is [len]. *)
Definition photo_p (i len : nat) : R :=
  INR i / INR (if Nat.eqb len 0 then 1%nat else len).

Definition photo_h (i len : nat) : R := -3 + photo_p i len * 6.

Definition photo_r (i len : nat) : R :=
  ((1 - (photo_h i len + 5) / 10) * 4) + 1.2.

Definition photo_angle (i : nat) : R := INR i * (PI * 2 / 1.618).

Definition photo_treePos (i len : nat) : Vector3 :=
  mkVector3 (cos (photo_angle i) * photo_r i len)
            (photo_h i len)
            (sin (photo_angle i) * photo_r i len).

(** Lines 54-63: the scatter position, from two random values. *)
Definition photo_scatterPos (u v : R) : Vector3 :=
  let theta := 2 * PI * u in
  let phi := acos (2 * v - 1) in
  let sr := 12 in
  mkVector3 (sr * sin phi * cos theta)
            (sr * sin phi * sin theta)
            (sr * cos phi).

(** The callback of [uploadedPhotos.map((photo, i) => ...)]. *)
Fixpoint photoLayout_from (rng : nat -> R) (len i : nat)
  (photos : list App.PhotoData) (drawn : nat) : list Layout * nat :=
  match photos with
  | [] => ([], drawn)
  | photo :: rest =>
      let '(u, drawn) := Math_random rng drawn in
      let '(v, drawn) := Math_random rng drawn in
      let entry := mkLayout (photo_scatterPos u v) (photo_treePos i len)
                            (App.id photo) in
      let '(entries, drawn) := photoLayout_from rng len (S i) rest drawn in
      (entry :: entries, drawn)
  end.

(** Lines 51-78: [photoLayout], recomputed by [useMemo] whenever
    [uploadedPhotos] is a new array. *)
Definition photoLayout (rng : nat -> R) (uploadedPhotos : list App.PhotoData)
  (drawn : nat) : list Layout * nat :=
  photoLayout_from rng (List.length uploadedPhotos) 0 uploadedPhotos drawn.

(** The memo cell behind [useMemo(..., [uploadedPhotos])]: the array the
    layout was last computed from, and that layout; empty before the first
    render. *)
Definition PhotoMemo : Type := option (nat * list Layout).

(** One render of [Scene] with the app state [st], as far as
    [photoLayout] goes: the callback runs on the first render and whenever
    [uploadedPhotos] is not the array of the render before, drawing new
    random values; otherwise the stored layout is returned. *)
Definition render_photoLayout (rng : nat -> R) (memo : PhotoMemo)
  (st : App.State) (drawn : nat) : (nat * list Layout) * nat :=
  let compute :=
    let '(layout, drawn) := photoLayout rng (App.photos st) drawn in
    ((App.photosRef st, layout), drawn) in
  match memo with
  | Some (dep, layout) =>
      if Nat.eqb dep (App.photosRef st) then ((dep, layout), drawn)
      else compute
  | None => compute
  end.

(** Line 159: the point a photo heads for. *)
Definition photo_currentPos (layout : Layout) (t : R) : Vector3 :=
  lerpVectors (treePos layout) (scatterPos layout) t.

(** Lines 156-165, the callback of [children.forEach]: each child keeps
    its own object across frames. *)
Definition update_photo (treeState : TreeState) (t : R) (layout : option Layout)
  (child : Object3D) : Object3D :=
  match layout with
  | None => child
  | Some layout =>
      let currentPos := photo_currentPos layout t in
      let child := mkObject3D (Vector3_lerp (position child) currentPos 0.1)
                              (rotation child) (scale child) in
      let child := lookAt child 0 0 0 in
      let targetScale := if TreeState_eqb treeState SCATTERED then 1.5 else 0.8 in
      scale_setScalar child (MathUtils.lerp (vx (scale child)) targetScale 0.1)
  end.

End Scene.

(** ** src/components/HandController.tsx: the detection loop *)

Module DetectLoop.

Import HandController.
Local Open Scope Q_scope.

(** The refs one run of [detect] reads and writes: the two of the
    debounce logic and [lastVideoTimeRef]. *)
Record LoopRefs : Type := mkLoopRefs {
  gestureRefs : Refs;
  lastVideoTimeRef : Q
}.

(** [useRef(-1)] for the video time. *)
Definition initialLoopRefs : LoopRefs := mkLoopRefs initialRefs (-1).

(** Lines 48-78, one run of [detect].  [video] is
    [videoRef.current.currentTime], absent without a video element;
    [landmarker] tells whether [landmarkerRef.current] is set; [result] is
    what [detectForVideo] returns when it is called.  The value is the refs
    afterwards and the arguments of [onGesture] when it is called.  An
    exception ([None]) leaves the function before it requests the next
    animation frame. *)
Definition detect_tick (st : LoopRefs) (video : option Q) (landmarker : bool)
  (result : option (list (list Point)))
  : option (LoopRefs * option (HandGesture * option HandData)) :=
  match video with
  | Some currentTime =>
      if negb (Qeq_bool currentTime (lastVideoTimeRef st)) && landmarker
      then
        match detect (gestureRefs st) result with
        | Some (refs', out) => Some (mkLoopRefs refs' currentTime, Some out)
        | None => None
        end
      else Some (st, None)
  | None => Some (st, None)
  end.

End DetectLoop.

(** ** src/components/ArixChristmasTree.tsx: the data built by [useMemo] *)

Module TreeData.

Import THREE ArixChristmasTree Scene.
Local Open Scope R_scope.

Definition NEEDLE_COUNT : nat := Z.to_nat 6000.
Definition RIBBON_COUNT : nat := Z.to_nat 1500.
Definition GOLD_ORNAMENT_COUNT : nat := 150.
Definition RED_ORNAMENT_COUNT : nat := 100.
Definition LIGHTS_COUNT : nat := 200.

(** [Math.cbrt]: the real cube root. *)
Definition cbrt (x : R) : R :=
  if Rlt_dec 0 x then exp (ln x / 3)
  else if Rlt_dec x 0 then - exp (ln (- x) / 3)
  else 0.

(** Lines 17-28, [getRandomScatterPoint(radius)]: three random values. *)
Definition getRandomScatterPoint (rng : nat -> R) (radius : R) (drawn : nat)
  : Vector3 * nat :=
  let '(u, drawn) := Math_random rng drawn in
  let '(v, drawn) := Math_random rng drawn in
  let theta := 2 * PI * u in
  let phi := acos (2 * v - 1) in
  let '(w, drawn) := Math_random rng drawn in
  let r := cbrt w * radius in
  (mkVector3 (r * sin phi * cos theta)
             (r * sin phi * sin theta)
             (r * cos phi),
   drawn).

(** [for (let i = i0; i < i0 + n; i++) data.push(item(i))], the items
    drawing random values one after the other. *)
Fixpoint generate {E : Type} (item : nat -> nat -> E * nat) (n i drawn : nat)
  : list E * nat :=
  match n with
  | O => ([], drawn)
  | S n' =>
      let '(e, drawn) := item i drawn in
      let '(rest, drawn) := generate item n' (S i) drawn in
      (e :: rest, drawn)
  end.

(** Lines 46-75: one needle. *)
Definition needle_phi : R := PI * (3 - sqrt 5).

Definition needle_y (i : nat) : R := 5 - (INR i / INR (NEEDLE_COUNT - 1)) * 10.

Definition needle (rng : nat -> R) (i drawn : nat) : Needle * nat :=
  let '(scatterPos, drawn) := getRandomScatterPoint rng 35 drawn in
  let y := needle_y i in
  let radius := (5 - y) * 0.6 in
  let theta := needle_phi * INR i in
  let '(a, drawn) := Math_random rng drawn in
  let r := radius + (a - 0.5) * 1.5 in
  let x := cos theta * r in
  let z := sin theta * r in
  let '(b, drawn) := Math_random rng drawn in
  let rotation := mkVector3 (b * 0.5 - 0.2) (theta + PI / 2) 0.5 in
  let '(c, drawn) := Math_random rng drawn in
  (mkNeedle scatterPos (mkVector3 x y z) rotation (c * 0.5 + 0.5), drawn).

Definition needlesData (rng : nat -> R) (drawn : nat) : list Needle * nat :=
  generate (needle rng) NEEDLE_COUNT 0 drawn.

(** Lines 82-102: one bit of the ribbon, [turns = 6]. *)
Definition ribbon_t (i : nat) : R := INR i / INR RIBBON_COUNT.

Definition ribbon_y (i : nat) : R := 4.5 - (ribbon_t i * 9).

Definition ribbon_r (i : nat) : R := (5 - ribbon_y i) * 0.75 + 0.6.

Definition ribbon_angle (i : nat) : R := ribbon_t i * PI * 2 * 6.

Definition ribbonBit (rng : nat -> R) (i drawn : nat) : RibbonBit * nat :=
  let '(scatterPos, drawn) := getRandomScatterPoint rng 40 drawn in
  let x := cos (ribbon_angle i) * ribbon_r i in
  let z := sin (ribbon_angle i) * ribbon_r i in
  let '(c, drawn) := Math_random rng drawn in
  (mkRibbonBit scatterPos (mkVector3 x (ribbon_y i) z) (c * 0.5 + 0.5), drawn).

Definition ribbonData (rng : nat -> R) (drawn : nat) : list RibbonBit * nat :=
  generate (ribbonBit rng) RIBBON_COUNT 0 drawn.

(** Lines 108-127, [generateOrnamentData(count, color, radiusOffset)];
    the color argument is not read. *)
Definition ornament (rng : nat -> R) (radiusOffset : R) (i drawn : nat)
  : Ornament * nat :=
  let '(scatterPos, drawn) := getRandomScatterPoint rng 30 drawn in
  let '(a, drawn) := Math_random rng drawn in
  let y := -4.5 + a * 9 in
  let coneR := (5 - y) * 0.6 in
  let '(b, drawn) := Math_random rng drawn in
  let r := coneR + 0.2 + b * 0.5 + radiusOffset in
  let '(c, drawn) := Math_random rng drawn in
  let angle := c * PI * 2 in
  let '(d, drawn) := Math_random rng drawn in
  let '(e, drawn) := Math_random rng drawn in
  (mkOrnament scatterPos (mkVector3 (cos angle * r) y (sin angle * r))
              (0.5 + d * 0.5) (e * 10),
   drawn).

Definition generateOrnamentData (rng : nat -> R) (count : nat)
  (radiusOffset : R) (drawn : nat) : list Ornament * nat :=
  generate (ornament rng radiusOffset) count 0 drawn.

(** Lines 129-131. *)
Definition goldData (rng : nat -> R) (drawn : nat) : list Ornament * nat :=
  generateOrnamentData rng GOLD_ORNAMENT_COUNT 0.0 drawn.

Definition redData (rng : nat -> R) (drawn : nat) : list Ornament * nat :=
  generateOrnamentData rng RED_ORNAMENT_COUNT 0.0 drawn.

Definition lightsData (rng : nat -> R) (drawn : nat) : list Ornament * nat :=
  generateOrnamentData rng LIGHTS_COUNT (-0.2) drawn.

End TreeData.

(** ** src/components/Scene.tsx: particles, rotation and photos per frame *)

Module SceneLoop.

Import THREE Scene.
Local Open Scope R_scope.

Definition PARTICLE_COUNT : nat := 2000.

Definition colors : list string :=
  ["#FFFFFF"; "#D4AF37"; "#ADD8E6"]%string.

(** [colors[k]] for an integer [k]; past either end the value is
    [undefined], which the record cannot hold: the empty string. *)
Definition color_at (k : Z) : string :=
  match k with
  | Zneg _ => EmptyString
  | _ => nth (Z.to_nat k) colors EmptyString
  end.

(** Lines 28-45: one particle, seven random values. *)
Definition particle (rng : nat -> R) (i drawn : nat) : Particle * nat :=
  let '(a, drawn) := Math_random rng drawn in
  let r := 10 + a * 20 in
  let '(b, drawn) := Math_random rng drawn in
  let theta := b * PI * 2 in
  let '(c, drawn) := Math_random rng drawn in
  let y := c * 30 - 15 in
  let scatterPos := mkVector3 (r * cos theta) y (r * sin theta) in
  let '(d, drawn) := Math_random rng drawn in
  let '(e, drawn) := Math_random rng drawn in
  let '(f, drawn) := Math_random rng drawn in
  let '(g, drawn) := Math_random rng drawn in
  (mkParticle scatterPos (d * 0.05 + 0.02) (e * 0.1 + 0.05)
              (color_at (Zfloor (f * INR (List.length colors))))
              (g * 100),
   drawn).

(** Lines 23-48: [particles]. *)
Definition particles (rng : nat -> R) (drawn : nat) : list Particle * nat :=
  TreeData.generate (particle rng) PARTICLE_COUNT 0 drawn.

(** [rotationOffset.current]. *)
Record RotationOffset : Type := mkRotationOffset { rot_x : R; rot_y : R }.

(** [useRef({ x: 0, y: 0 })]. *)
Definition initialRotationOffset : RotationOffset := mkRotationOffset 0 0.

(** Lines 89-97: the rotation offset after one frame.  [handData] is the
    hand position, or null. *)
Definition rotation_step (treeState : TreeState) (handData : option (R * R))
  (ro : RotationOffset) : RotationOffset :=
  match TreeState_eqb treeState SCATTERED, handData with
  | true, Some (hx, hy) =>
      let targetRotY := (0.5 - hx) * 2 in
      let targetRotX := (hy - 0.5) * 1 in
      mkRotationOffset (MathUtils.lerp (rot_x ro) targetRotX 0.1)
                       (MathUtils.lerp (rot_y ro) targetRotY 0.1)
  | _, _ =>
      mkRotationOffset (MathUtils.lerp (rot_x ro) 0 0.1) (rot_y ro + 0.001)
  end.

(** The offset after a run of frames, one hand position (or null) each. *)
Definition rotation_run (treeState : TreeState) (hands : list (option (R * R)))
  (ro : RotationOffset) : RotationOffset :=
  fold_left (fun r h => rotation_step treeState h r) hands ro.

(** Lines 154-167: [children.forEach((child, i) => ...)] when there are
    uploaded photos; a child without a layout entry is left alone. *)
Fixpoint update_children (treeState : TreeState) (t : R)
  (photoLayout : list Layout) (i : nat) (children : list Object3D)
  : list Object3D :=
  match children with
  | [] => []
  | child :: rest =>
      update_photo treeState t (nth_error photoLayout i) child
      :: update_children treeState t photoLayout (S i) rest
  end.

Definition update_photos (treeState : TreeState) (t : R)
  (uploadedPhotos : nat) (photoLayout : list Layout)
  (children : list Object3D) : list Object3D :=
  if (0 <? uploadedPhotos)%nat
  then update_children treeState t photoLayout 0 children
  else children.

(** The same photo updated over [n] frames with the progress held at [t]. *)
Definition follow (treeState : TreeState) (t : R) (layout : Layout)
  (n : nat) (child : Object3D) : Object3D :=
  Nat.iter n (update_photo treeState t (Some layout)) child.

End SceneLoop.

(** ** src/components/Experience.tsx *)

Module Experience.

Import THREE.
Local Open Scope R_scope.

(** Lines 15-22, [MovingLight]: the position of the point light at
    elapsed time [t]. *)
Definition movingLight_position (t : R) : Vector3 :=
  mkVector3 (sin (t * 0.5) * 8) (sin (t * 0.8) * 4) (cos (t * 0.5) * 8).

(** Line 36: the orbit controls rotate by themselves while assembled. *)
Definition autoRotate (treeState : TreeState) : bool :=
  TreeState_eqb treeState ASSEMBLED.

End Experience.

(** ** The specification's vocabulary

    Definitions that follow the words of the specification, to be compared
    with the code above. *)

Module Spec.

Import HandController.

(** The point at index [k] of a landmark set (the origin past its end,
    which no statement below reaches). *)
Definition pt (landmarks : list Point) (k : nat) : Point :=
  nth k landmarks (mkPoint 0 0).

(** Squared distance in the image plane, in binary64 and in the order of
    operations of [dSq]. *)
Definition dist2 (a b : Point) : float :=
  (sqr (px a - px b) + sqr (py a - py b))%float.

(** The boolean tests the two loops make on finger [i] (0 the index
    finger, 3 the pinky), in binary64. *)
Definition folded_b (landmarks : list Point) (i : nat) : bool :=
  (dist2 (pt landmarks (idx tips i)) (pt landmarks 0)
   <? dist2 (pt landmarks (idx bases i)) (pt landmarks 0) * 1.2)%float.

Definition extended_b (landmarks : list Point) (i : nat) : bool :=
  (dist2 (pt landmarks (idx bases i)) (pt landmarks 0) * 1.5
   <? dist2 (pt landmarks (idx tips i)) (pt landmarks 0))%float.

(** Finger [i] is folded: the squared distance of its tip to the wrist
    is less than 1.2 times that of its base joint, the distances, the
    product and the comparison being those of doubles. *)
Definition folded (landmarks : list Point) (i : nat) : Prop :=
  folded_b landmarks i = true.

(** Finger [i] is extended: more than 1.5 times. *)
Definition extended (landmarks : list Point) (i : nat) : Prop :=
  extended_b landmarks i = true.

(** At least three of the four fingers satisfy [P]. *)
Definition at_least_3_of_4 (P : nat -> Prop) : Prop :=
  (P 0%nat /\ P 1%nat /\ P 2%nat) \/ (P 0%nat /\ P 1%nat /\ P 3%nat) \/
  (P 0%nat /\ P 2%nat /\ P 3%nat) \/ (P 1%nat /\ P 2%nat /\ P 3%nat).

Definition fist_condition (landmarks : list Point) : Prop :=
  at_least_3_of_4 (folded landmarks).

Definition open_condition (landmarks : list Point) : Prop :=
  at_least_3_of_4 (extended landmarks).

(** Squared distance between thumb tip and index tip, in binary64. *)
Definition pinch_dist (landmarks : list Point) : float :=
  dist2 (pt landmarks 4) (pt landmarks 8).

(** The number of fingers out of four that pass a test. *)
Definition count4 (f : nat -> bool) : nat :=
  List.length (filter f [0; 1; 2; 3]%nat).

(** The smoothing formula of the specification, with a time constant:
    [target + (progress - target) * exp(-dt / timeConstant)]. *)
Definition damp_time_constant (progress target timeConstant dt : R) : R :=
  (target + (progress - target) * exp (- dt / timeConstant))%R.

(** Total elapsed time of a run of frames. *)
Definition elapsed (deltas : list R) : R := fold_right Rplus 0%R deltas.

(** Repeated [damp] toward target 1 with the rate [lambda]. *)
Definition damp_run (lambda : R) (progress : R) (deltas : list R) : R :=
  fold_left (fun p dt => THREE.MathUtils.damp p 1 lambda dt) deltas progress.




(** [map] with the index, counting from [i]. *)
Fixpoint imap {E A : Type} (f : nat -> E -> A) (i : nat) (l : list E)
  : list A :=
  match l with
  | [] => []
  | d :: rest => f i d :: imap f (S i) rest
  end.

End Spec.

(** ** Notions used to state further properties *)

Module Notions.

Import HandController.

(** A landmark moved by [(dx, dy)], each sum rounded to binary64. *)
Definition translate (dx dy : float) (p : Point) : Point :=
  mkPoint (px p + dx)%float (py p + dy)%float.

(** The pairs of landmarks whose coordinate differences decide the result
    of [analyzeGesture]: each tip and each base against the wrist, and the
    thumb tip against the index tip. *)
Definition read_pairs : list (nat * nat) :=
  [(8, 0); (5, 0); (12, 0); (9, 0); (16, 0); (13, 0); (20, 0); (17, 0);
   (4, 8)]%nat.

(** Two landmark sets in which those differences, as doubles, are the
    same. *)
Definition same_offsets (lm lm' : list Point) : Prop :=
  Forall (fun jk =>
            (px (Spec.pt lm' (fst jk)) - px (Spec.pt lm' (snd jk))
             = px (Spec.pt lm (fst jk)) - px (Spec.pt lm (snd jk)))%float /\
            (py (Spec.pt lm' (fst jk)) - py (Spec.pt lm' (snd jk))
             = py (Spec.pt lm (fst jk)) - py (Spec.pt lm (snd jk)))%float)
         read_pairs.

(** Two landmark sets that agree everywhere but at the thumb tip. *)
Definition same_but_thumb (lm lm' : list Point) : Prop :=
  List.length lm = List.length lm' /\
  forall k, k <> 4%nat -> nth_error lm k = nth_error lm' k.

(** The rational number a finite double stands for. *)
Definition exact (x : float) : Q :=
  match Prim2SF x with
  | S754_finite s m e =>
      ((if s then -1 else 1) * inject_Z (Z.pos m) * (2 # 1) ^ e)%Q
  | _ => 0%Q
  end.

(** The scene state a gesture asks for, if any, and the one asked for
    last in a stream of gestures. *)
Definition command (g : HandGesture) : option TreeState :=
  match g with
  | FIST => Some ASSEMBLED
  | OPEN => Some SCATTERED
  | NONE | PINCH => None
  end.

Fixpoint last_command (gs : list HandGesture) : option TreeState :=
  match gs with
  | [] => None
  | g :: rest =>
      match last_command rest with
      | Some s => Some s
      | None => command g
      end
  end.

(** [handleGesture] called once for each element of a stream of
    [onGesture] arguments. *)
Definition handle_all (st : App.State)
  (calls : list (HandGesture * option HandData)) : App.State :=
  fold_left (fun s c => App.handleGesture s (fst c) (snd c)) calls st.

(** The tree's morph progress after a run of frames, each with the
    scene state it sees and its delta. *)
Definition morph_frames (morphProgress : R) (frames : list (TreeState * R)) : R :=
  fold_left (fun p f => ArixChristmasTree.morphProgress_step (fst f) p (snd f))
            frames morphProgress.

(** The scene's progress after a run of frames under one scene state. *)
Definition progress_run (treeState : TreeState) (progress : R)
  (deltas : list R) : R :=
  fold_left (Scene.progress_step treeState) deltas progress.

(** [x] lies between [a] and [b], whichever is larger. *)
Definition between (a b x : R) : Prop := (Rmin a b <= x <= Rmax a b)%R.

(** The object is scaled by the same factor [s] along the three axes,
    with [lo <= s <= hi]. *)
Definition uniform_scale (lo hi : R) (m : THREE.Object3D) : Prop :=
  exists s, THREE.scale m = THREE.mkVector3 s s s /\ (lo <= s <= hi)%R.

(** Every value [Math.random()] returns lies in [0, 1). *)
Definition unit_rng (rng : nat -> R) : Prop := forall k, (0 <= rng k < 1)%R.

(** Squared distance from the origin, and from the vertical axis. *)
Definition norm2 (v : THREE.Vector3) : R :=
  (THREE.vx v * THREE.vx v + THREE.vy v * THREE.vy v + THREE.vz v * THREE.vz v)%R.

Definition axis2 (v : THREE.Vector3) : R :=
  (THREE.vx v * THREE.vx v + THREE.vz v * THREE.vz v)%R.

End Notions.

(** ** The shape of the generated data *)

Module Shapes.

Import THREE ArixChristmasTree Notions.
Local Open Scope R_scope.

(** A needle as the loop builds it. *)
Definition needle_ok (d : Needle) : Prop :=
  -5 <= vy (n_treePosition d) <= 5 /\
  (exists r, axis2 (n_treePosition d) = r * r /\
             Rabs (r - (5 - vy (n_treePosition d)) * 0.6) <= 0.75) /\
  -0.2 <= vx (n_rotation d) < 0.3 /\ vz (n_rotation d) = 0.5 /\
  0.5 <= n_scale d < 1 /\
  norm2 (n_scatterPosition d) <= 35 * 35.

(** A ribbon bit as the loop builds it. *)
Definition ribbon_ok (d : RibbonBit) : Prop :=
  -4.5 < vy (r_treePosition d) <= 4.5 /\
  axis2 (r_treePosition d)
  = ((5 - vy (r_treePosition d)) * 0.75 + 0.6)
    * ((5 - vy (r_treePosition d)) * 0.75 + 0.6) /\
  0.5 <= r_scale d < 1 /\
  norm2 (r_scatterPosition d) <= 40 * 40.

(** An ornament built with the given radius offset. *)
Definition ornament_ok (radiusOffset : R) (d : Ornament) : Prop :=
  -4.5 <= vy (o_treePosition d) < 4.5 /\
  (exists r, axis2 (o_treePosition d) = r * r /\
             (5 - vy (o_treePosition d)) * 0.6 + 0.2 + radiusOffset <= r
             < (5 - vy (o_treePosition d)) * 0.6 + 0.7 + radiusOffset) /\
  0.5 <= o_scale d < 1 /\
  0 <= o_phase d < 10 /\
  norm2 (o_scatterPosition d) <= 30 * 30.

(** A snow particle as the loop builds it. *)
Definition particle_ok (p : Scene.Particle) : Prop :=
  -15 <= vy (Scene.initialPos p) < 15 /\
  10 * 10 <= axis2 (Scene.initialPos p) < 30 * 30 /\
  0.02 <= Scene.velocity p < 0.07 /\
  0.05 <= Scene.p_scale p < 0.15 /\
  In (Scene.p_color p) SceneLoop.colors /\
  0 <= Scene.offset p < 100.

(** A hand position inside the image. *)
Definition hand_in_image (h : option (R * R)) : Prop :=
  match h with
  | Some (x, y) => 0 <= x <= 1 /\ 0 <= y <= 1
  | None => True
  end.

End Shapes.

(** ** Concrete inputs used in the examples *)

Module Examples.

Import HandController.
Local Open Scope float_scope.

(** A landmark set: the wrist at the origin, the four base joints at
    (0.1, 0), the four fingertips at [tip], the thumb tip at [thumb]. *)
Definition hand (tip thumb : Point) : list Point :=
  let o := mkPoint 0 0 in
  let b := mkPoint 0.1 0 in
  [o; o; o; o; thumb; b; o; o; tip; b; o; o; tip; b; o; o; tip; b; o; o; tip].

(** Fingertips that are neither folded nor extended on [hand], and a
    thumb tip at squared distance 0.001, as doubles add up, from them. *)
Definition half_bent : Point := mkPoint 0 0.1171875.

Definition pinching_thumb : Point := mkPoint 0.004841229182759263 0.1484375.

(** A hand on the edge of a pinch: the wrist at (0.5, 0.5), the bases at
    (0.5, 0.4), three half-bent tips, and an index tip and a thumb tip
    whose squared distance is below 0.002 as a rational number and equal to
    the double 0.002 once the two squares and their sum are rounded. *)
Definition edge_index : Point :=
  mkPoint 9.553741620038636e-07 9.5367431640625e-07.

Definition edge_thumb : Point :=
  mkPoint 0.044722314924001694 1.0718358680605888e-06.

Definition edge_hand : list Point :=
  let w := mkPoint 0.5 0.5 in
  let b := mkPoint 0.5 0.4 in
  let t := mkPoint 0.5 0.3828125 in
  [w; w; w; w; edge_thumb; b; w; w; edge_index; b; w; w; t; b; w; w; t;
   b; w; w; t].

(** A stretched hand on a grid of binary fractions, which sums with
    binary fractions do not round. *)
Definition grid_hand : list Point :=
  let w := mkPoint 0.5 0.5 in
  let b := mkPoint 0.5 0.375 in
  let t := mkPoint 0.5 0.25 in
  [w; w; w; w; mkPoint 0.25 0.25; b; w; w; t; b; w; w; t; b; w; w; t;
   b; w; w; t].

(** A hand that a move changes: the squared distance of thumb tip and
    index tip is just above 0.002, and just below once both points have
    been moved by (0.5, 0.5) and the sums rounded. *)
Definition drift_hand : list Point :=
  let w := mkPoint 0.5 0.5 in
  let b := mkPoint 0.5 0.4 in
  let t := mkPoint 0.5 0.3828125 in
  let thumb := mkPoint 0.2125318932730204 0.5090164157695851 in
  let index := mkPoint 0.255 0.495 in
  [w; w; w; w; thumb; b; w; w; index; b; w; w; t; b; w; w; t; b; w; w; t].



(** A snow particle at the origin. *)
Definition flake : Scene.Particle :=
  Scene.mkParticle (THREE.mkVector3 0 0 0) 0.02%R 0.05%R "#FFFFFF" 0%R.

(** Two sequences of values for [Math.random()]. *)
Definition rng_zero : nat -> R := fun _ => 0%R.

Definition rng_step : nat -> R :=
  fun k => match k with O => 0%R | S _ => 0.5%R end.

End Examples.

(** * Properties *)

Lemma HandGesture_eqb_spec a b : reflect (a = b) (HandGesture_eqb a b).
Proof. destruct a, b; simpl; constructor; congruence. Qed.

Lemma TreeState_eqb_spec a b : reflect (a = b) (TreeState_eqb a b).
Proof. destruct a, b; simpl; constructor; congruence. Qed.

(** ** The landmark classifier *)

Module ClassifierProps.

Import HandController Spec Notions Examples.
Local Open Scope float_scope.

Lemma bool_true_spec (b : bool) : reflect (b = true) b.
Proof. destruct b; constructor; [reflexivity | discriminate]. Qed.

Lemma folded_b_spec lm i : reflect (folded lm i) (folded_b lm i).
Proof. apply bool_true_spec. Qed.

Lemma extended_b_spec lm i : reflect (extended lm i) (extended_b lm i).
Proof. apply bool_true_spec. Qed.

(** Three of four, on the boolean side. *)
Lemma at_least_3_of_4_count (P : nat -> Prop) (f : nat -> bool) :
  (forall i, reflect (P i) (f i)) ->
  at_least_3_of_4 P <-> (3 <= count4 f)%nat.
Proof.
  intros R. unfold at_least_3_of_4, count4. simpl.
  destruct (R 0%nat), (R 1%nat), (R 2%nat), (R 3%nat); simpl;
    split; intros H; try lia; try tauto.
Qed.

(** A 21-point landmark set, point by point. *)
Ltac explode_21 lm H :=
  do 21 (destruct lm as [| ? lm]; [discriminate H |]);
  destruct lm; [clear H | discriminate H].

Lemma foldedCount_21 lm :
  List.length lm = 21%nat -> foldedCount lm = Some (count4 (folded_b lm)).
Proof.
  intros H. explode_21 lm H.
  unfold foldedCount, count4, folded_b.
  cbn -[PrimFloat.ltb PrimFloat.mul PrimFloat.add PrimFloat.sub sqr].
  fold (dist2 p7 p) (dist2 p4 p) (dist2 p11 p) (dist2 p8 p)
       (dist2 p15 p) (dist2 p12 p) (dist2 p19 p) (dist2 p16 p).
  repeat match goal with |- context [if ?b then _ else _] => destruct b end;
    reflexivity.
Qed.

Lemma extendedCount_21 lm :
  List.length lm = 21%nat -> extendedCount lm = Some (count4 (extended_b lm)).
Proof.
  intros H. explode_21 lm H.
  unfold extendedCount, count4, extended_b.
  cbn -[PrimFloat.ltb PrimFloat.mul PrimFloat.add PrimFloat.sub sqr].
  fold (dist2 p7 p) (dist2 p4 p) (dist2 p11 p) (dist2 p8 p)
       (dist2 p15 p) (dist2 p12 p) (dist2 p19 p) (dist2 p16 p).
  repeat match goal with |- context [if ?b then _ else _] => destruct b end;
    reflexivity.
Qed.

Lemma thumbTucked_21 lm :
  List.length lm = 21%nat -> exists b, thumbTucked lm = Some b.
Proof.
  intros H. explode_21 lm H.
  unfold thumbTucked.
  cbn -[PrimFloat.ltb PrimFloat.mul PrimFloat.add PrimFloat.sub sqr].
  match goal with |- context [if ?b then _ else _] => destruct b end;
    eexists; reflexivity.
Qed.

Lemma pinchDist_21 lm :
  List.length lm = 21%nat ->
  dSq (at_index lm 4) (at_index lm 8) = Some (pinch_dist lm).
Proof. intros H. explode_21 lm H. reflexivity. Qed.

(** The cascade of [analyzeGesture] on a 21-point set, in terms of the
    two counts and the pinch distance. *)
Lemma analyzeGesture_21 lm :
  List.length lm = 21%nat ->
  analyzeGesture lm =
  Some (if (3 <=? count4 (folded_b lm))%nat then FIST
        else if (3 <=? count4 (extended_b lm))%nat then OPEN
        else if pinch_dist lm <? 0.002 then PINCH
        else NONE).
Proof.
  intros H. unfold analyzeGesture.
  rewrite (foldedCount_21 lm H), (extendedCount_21 lm H), (pinchDist_21 lm H).
  destruct (thumbTucked_21 lm H) as [b ->]. unfold obind.
  destruct (3 <=? count4 (folded_b lm))%nat; [reflexivity |].
  destruct (3 <=? count4 (extended_b lm))%nat; [reflexivity |].
  destruct (pinch_dist lm <? 0.002); reflexivity.
Qed.

(** A set with fewer than 21 points makes the classifier throw: the first
    loop reads [landmarks[20].x]. *)
Lemma analyzeGesture_short lm :
  (List.length lm < 21)%nat -> analyzeGesture lm = None.
Proof.
  intros H. unfold analyzeGesture.
  assert (E : foldedCount lm = None).
  { unfold foldedCount.
    do 21 (destruct lm as [| ? lm];
           [cbn -[PrimFloat.ltb PrimFloat.mul PrimFloat.add PrimFloat.sub sqr];
            repeat match goal with
                   | |- context [if ?b then _ else _] => destruct b
                   end; reflexivity |]).
    simpl in H. lia. }
  rewrite E. reflexivity.
Qed.

(** The classifier run on concrete hands: folded, stretched, pinching,
    neither, and a set that lacks its last point. *)
Example analyzeGesture_runs :
  analyzeGesture (hand (mkPoint 0.1 0) (mkPoint 1 1)) = Some FIST /\
  analyzeGesture (hand (mkPoint 0.2 0) (mkPoint 1 1)) = Some OPEN /\
  analyzeGesture (hand half_bent pinching_thumb) = Some PINCH /\
  analyzeGesture (hand half_bent (mkPoint 1 1)) = Some NONE /\
  analyzeGesture (firstn 20 (hand (mkPoint 0.1 0) (mkPoint 1 1))) = None.
Proof. repeat split; vm_compute; reflexivity. Qed.

(** Rounding decides at the edge.  On [edge_hand] the squared distance
    between thumb tip and index tip is below 0.002 as a rational number,
    below the double 0.002 even; the two rounded squares add up to the
    double 0.002, the comparison fails, and the classifier returns NONE. *)
Example analyzeGesture_at_the_edge :
  ((exact (px edge_thumb) - exact (px edge_index)) ^ 2
   + (exact (py edge_thumb) - exact (py edge_index)) ^ 2 < exact 0.002)%Q /\
  pinch_dist edge_hand = 0.002 /\
  analyzeGesture edge_hand = Some NONE.
Proof. repeat split; vm_compute; reflexivity. Qed.



(** C5: on every 21-point landmark set where neither the FIST nor the OPEN
    condition holds, the classifier returns PINCH exactly when the squared
    distance between thumb tip (4) and index tip (8), as the code computes
    it in doubles, is below 0.002, in particular when it equals 0.001, and
    returns NONE otherwise. *)
Theorem analyzeGesture_pinch (lm : list Point)
  (H21 : List.length lm = 21%nat)
  (Hfist : ~ fist_condition lm) (Hopen : ~ open_condition lm) :
  (analyzeGesture lm = Some PINCH <-> (pinch_dist lm <? 0.002) = true) /\
  (pinch_dist lm = 0.001 -> analyzeGesture lm = Some PINCH) /\
  ((pinch_dist lm <? 0.002) = false -> analyzeGesture lm = Some NONE) /\
  (analyzeGesture lm = Some PINCH \/ analyzeGesture lm = Some NONE).
Proof.
  rewrite (analyzeGesture_21 lm H21).
  unfold fist_condition, open_condition in Hfist, Hopen.
  rewrite (at_least_3_of_4_count _ _ (folded_b_spec lm)) in Hfist.
  rewrite (at_least_3_of_4_count _ _ (extended_b_spec lm)) in Hopen.
  destruct (Nat.leb_spec 3 (count4 (folded_b lm))); [contradiction |].
  destruct (Nat.leb_spec 3 (count4 (extended_b lm))); [contradiction |].
  split; [| split; [| split]].
  - destruct (pinch_dist lm <? 0.002); split; intros E;
      (reflexivity || discriminate E).
  - intros ->. reflexivity.
  - intros ->. reflexivity.
  - destruct (pinch_dist lm <? 0.002); [left | right]; reflexivity.
Qed.

Lemma analyzeGesture_pinch_witness :
  let lm := hand half_bent pinching_thumb in
  List.length lm = 21%nat /\ ~ fist_condition lm /\ ~ open_condition lm /\
  pinch_dist lm = 0.001 /\ analyzeGesture lm = Some PINCH.
Proof.
  intros lm.
  assert (Hf : ~ fist_condition lm).
  { unfold fist_condition, at_least_3_of_4, folded.
    intros [[H _] | [[H _] | [[H _] | [H _]]]]; vm_compute in H; discriminate H. }
  assert (Ho : ~ open_condition lm).
  { unfold open_condition, at_least_3_of_4, extended.
    intros [[H _] | [[H _] | [[H _] | [H _]]]]; vm_compute in H; discriminate H. }
  assert (Hd : pinch_dist lm = 0.001) by (vm_compute; reflexivity).
  refine (conj eq_refl (conj Hf (conj Ho (conj Hd _)))).
  exact (proj1 (proj2 (analyzeGesture_pinch lm eq_refl Hf Ho)) Hd).
Defined.

End ClassifierProps.

(** ** The debounce logic and [detect] *)

Module DebounceProps.

Import HandController.

Lemma debounce_out refs raw : snd (debounce refs raw) = raw.
Proof.
  unfold debounce.
  destruct (HandGesture_eqb_spec raw (lastGestureRef refs)) as [-> | _];
    cbn [snd lastGestureRef gestureFramesRef];
    match goal with |- context [if ?b then _ else _] => destruct b end;
    reflexivity.
Qed.

Lemma debounce_last refs raw : lastGestureRef (fst (debounce refs raw)) = raw.
Proof.
  unfold debounce.
  destruct (HandGesture_eqb_spec raw (lastGestureRef refs)) as [-> | _];
    reflexivity.
Qed.

Lemma debounce_run_out raws : forall refs, snd (debounce_run refs raws) = raws.
Proof.
  induction raws as [| raw rest IH]; intros refs; cbn [debounce_run];
    [reflexivity |].
  pose proof (debounce_out refs raw) as Ho.
  destruct (debounce refs raw) as [refs' out]. cbn [snd] in Ho. subst out.
  specialize (IH refs').
  destruct (debounce_run refs' rest) as [refs'' outs]. cbn [snd] in *.
  now subst outs.
Qed.

(** C2: for every stream of raw symbols the debounce logic puts out, at
    each update, the raw symbol it was just given, which is also what
    [lastGestureRef] then holds; the frame counter goes up by one when the
    raw symbol repeats and back to 0 when it changes, and the output does
    not depend on it. *)
Theorem debounce_is_identity :
  (forall refs raws, snd (debounce_run refs raws) = raws) /\
  (forall refs raw,
      snd (debounce refs raw) = raw /\
      lastGestureRef (fst (debounce refs raw)) = raw /\
      (raw = lastGestureRef refs ->
       gestureFramesRef (fst (debounce refs raw)) = S (gestureFramesRef refs)) /\
      (raw <> lastGestureRef refs ->
       gestureFramesRef (fst (debounce refs raw)) = 0%nat)) /\
  (forall last n m raw,
      snd (debounce (mkRefs last n) raw) = snd (debounce (mkRefs last m) raw)).
Proof.
  split; [| split].
  - intros refs raws. apply debounce_run_out.
  - intros refs raw. repeat split.
    + apply debounce_out.
    + apply debounce_last.
    + intros ->. unfold debounce.
      destruct (HandGesture_eqb_spec (lastGestureRef refs) (lastGestureRef refs));
        [reflexivity | congruence].
    + intros Hne. unfold debounce.
      destruct (HandGesture_eqb_spec raw (lastGestureRef refs));
        [congruence | reflexivity].
  - intros last n m raw. now rewrite !debounce_out.
Qed.

(** The stream of the specification's scenario. *)
Example debounce_run_scenario :
  debounce_run initialRefs [OPEN; OPEN; OPEN; FIST; FIST]
  = (mkRefs FIST 1, [OPEN; OPEN; OPEN; FIST; FIST]).
Proof. reflexivity. Qed.

(** C6: when the detection result has no landmarks (the field is absent,
    or the list of hands is empty), [detect] passes NONE and a null hand
    position to [onGesture] and leaves its refs alone; this is a value, not
    an exception, and [handleGesture] then records NONE and null and
    keeps the scene state. *)
Theorem detect_no_hand :
  forall refs,
    detect refs None = Some (refs, (NONE, None)) /\
    detect refs (Some []) = Some (refs, (NONE, None)) /\
    forall st,
      App.onDetection refs st None
      = Some (refs, App.mkState (App.treeState st) NONE None (App.photos st)
                                (App.photosRef st)) /\
      App.onDetection refs st (Some [])
      = Some (refs, App.mkState (App.treeState st) NONE None (App.photos st)
                                (App.photosRef st)).
Proof. intros refs. repeat split. Qed.

End DebounceProps.

(** ** The scene state machine *)

Module StateMachineProps.

Import App.

(** C3: [handleGesture] sets the scene state to ASSEMBLED on FIST and to
    SCATTERED on OPEN, in the same call, and keeps the current state on
    NONE and on PINCH, whatever hand data comes with the gesture. *)
Theorem handleGesture_transitions :
  forall st data,
    treeState (handleGesture st FIST data) = ASSEMBLED /\
    treeState (handleGesture st OPEN data) = SCATTERED /\
    treeState (handleGesture st NONE data) = treeState st /\
    treeState (handleGesture st PINCH data) = treeState st.
Proof. intros st data. repeat split. Qed.

(** The specification's scenario: from SCATTERED, the stream OPEN, OPEN,
    OPEN, FIST, FIST ends ASSEMBLED. *)
Example handleGestures_scenario :
  treeState (handleGestures (mkState SCATTERED NONE None [] 0)
                            [OPEN; OPEN; OPEN; FIST; FIST]) = ASSEMBLED /\
  treeState (handleGestures (mkState SCATTERED NONE None [] 0) [OPEN]) = SCATTERED.
Proof. split; reflexivity. Qed.

End StateMachineProps.

(** ** The morph progress *)

Module MorphProps.

Import THREE THREE.MathUtils ArixChristmasTree Spec.
Local Open Scope R_scope.



(** [damp] in closed form: the distance to the target shrinks by the
    factor [exp (- (lambda * dt))]. *)
Lemma damp_closed x y lambda dt :
  damp x y lambda dt = y + (x - y) * exp (- (lambda * dt)).
Proof.
  unfold damp, lerp.
  replace (- lambda * dt) with (- (lambda * dt)) by ring. ring.
Qed.

Lemma damp_dt_0 x y lambda : damp x y lambda 0 = x.
Proof.
  rewrite damp_closed. replace (- (lambda * 0)) with 0 by ring.
  rewrite exp_0. ring.
Qed.

Lemma exp_neg_lt_1 x : 0 < x -> exp (- x) < 1.
Proof.
  intros H. rewrite <- exp_0. apply exp_increasing. lra.
Qed.

(** One step toward 1 from below: the value does not go down and stays
    at most 1. *)
Lemma damp_step_up p lambda dt :
  0 < lambda -> 0 < dt -> p <= 1 ->
  p <= damp p 1 lambda dt <= 1.
Proof.
  intros Hl Hdt Hp. rewrite damp_closed.
  assert (He1 : exp (- (lambda * dt)) < 1) by (apply exp_neg_lt_1; nra).
  pose proof (exp_pos (- (lambda * dt))) as He0.
  split; nra.
Qed.

Lemma damp_run_snoc lambda p dts dt :
  damp_run lambda p (dts ++ [dt]) = damp (damp_run lambda p dts) 1 lambda dt.
Proof. unfold damp_run. now rewrite fold_left_app. Qed.

(** The run in closed form: only the total elapsed time matters. *)
Lemma damp_run_closed lambda dts : forall p,
  damp_run lambda p dts = 1 + (p - 1) * exp (- (lambda * elapsed dts)).
Proof.
  induction dts as [| dt rest IH]; intros p.
  - simpl. replace (- (lambda * 0)) with 0 by ring. rewrite exp_0. ring.
  - change (damp_run lambda p (dt :: rest))
      with (damp_run lambda (damp p 1 lambda dt) rest).
    rewrite IH, damp_closed. simpl elapsed.
    replace (- (lambda * (dt + elapsed rest)))
      with (- (lambda * dt) + - (lambda * elapsed rest)) by ring.
    rewrite exp_plus. ring.
Qed.

Lemma elapsed_nonneg dts : Forall (Rlt 0) dts -> 0 <= elapsed dts.
Proof.
  induction 1 as [| dt rest Hdt _ IH]; simpl; lra.
Qed.

Lemma damp_run_bounds lambda dts :
  0 < lambda -> Forall (Rlt 0) dts -> 0 <= damp_run lambda 0 dts <= 1.
Proof.
  intros Hl Hdts. rewrite damp_run_closed.
  pose proof (elapsed_nonneg dts Hdts) as HE.
  pose proof (exp_pos (- (lambda * elapsed dts))) as He0.
  assert (He1 : exp (- (lambda * elapsed dts)) <= 1).
  { destruct HE as [HE | <-].
    - left. apply exp_neg_lt_1. nra.
    - replace (- (lambda * 0)) with 0 by ring. rewrite exp_0. lra. }
  split; nra.
Qed.

(** For a positive rate, [exp (- (lambda * T))] gets below any positive
    bound once [T] is large. *)
Lemma exp_neg_small lambda eps T :
  0 < lambda -> 0 < eps -> / (eps * lambda) <= T ->
  exp (- (lambda * T)) < eps.
Proof.
  intros Hl He HT.
  assert (Hel : 0 < eps * lambda) by nra.
  assert (HlT : / eps <= lambda * T).
  { replace (/ eps) with (lambda * / (eps * lambda)) by (field; lra).
    apply Rmult_le_compat_l; lra. }
  pose proof (exp_ineq1_le (lambda * T)) as Hexp.
  assert (Hie : 0 < / eps) by (apply Rinv_0_lt_compat; lra).
  rewrite exp_Ropp.
  rewrite <- (Rinv_inv eps).
  apply Rinv_lt_contravar; [| lra].
  apply Rmult_lt_0_compat; [exact Hie | lra].
Qed.

Lemma smoothTime_ASSEMBLED : smoothTime ASSEMBLED = 2.
Proof. unfold smoothTime. simpl. lra. Qed.

Lemma morphProgress_run_ASSEMBLED p dts :
  morphProgress_run ASSEMBLED p dts = damp_run 2 p dts.
Proof.
  unfold morphProgress_run, damp_run, morphProgress_step.
  rewrite smoothTime_ASSEMBLED. reflexivity.
Qed.

Lemma smoothTime_SCATTERED : smoothTime SCATTERED = 0.8.
Proof. reflexivity. Qed.

(** The step of the code in closed form: [smoothTime] multiplies the
    elapsed time. *)
Lemma morphProgress_step_closed state p dt :
  morphProgress_step state p dt
  = target state + (p - target state) * exp (- (smoothTime state * dt)).
Proof. unfold morphProgress_step. apply damp_closed. Qed.

(** C1: the step of the code is
    [target + (progress - target) * exp (- smoothTime * dt)]: three.js
    takes the third argument of [damp] as a rate, so 2.0 and 0.8 are not
    time constants.  From progress 0 with ASSEMBLED and one second elapsed
    the code gives [1 - exp (-2)], the formula of the specification with
    time constant 2 gives [1 - exp (-1/2)], and these differ; after that
    second the distance left to the target is smaller while ASSEMBLED
    (rate 2.0) than while SCATTERED (rate 0.8), so assembling is the
    faster direction. *)
Theorem morphProgress_step_uses_rate :
  (forall state p dt,
     morphProgress_step state p dt
     = target state + (p - target state) * exp (- (smoothTime state * dt))) /\
  morphProgress_step ASSEMBLED 0 1 = 1 - exp (- 2) /\
  damp_time_constant 0 (target ASSEMBLED) (smoothTime ASSEMBLED) 1
  = 1 - exp (- (1 / 2)) /\
  morphProgress_step ASSEMBLED 0 1
  <> damp_time_constant 0 (target ASSEMBLED) (smoothTime ASSEMBLED) 1 /\
  1 - morphProgress_step ASSEMBLED 0 1 < morphProgress_step SCATTERED 1 1 - 0.
Proof.
  assert (E1 : morphProgress_step ASSEMBLED 0 1 = 1 - exp (- 2)).
  { rewrite morphProgress_step_closed, smoothTime_ASSEMBLED.
    unfold target. simpl. replace (- (2 * 1)) with (- 2) by ring. ring. }
  assert (E2 : damp_time_constant 0 (target ASSEMBLED) (smoothTime ASSEMBLED) 1
               = 1 - exp (- (1 / 2))).
  { unfold damp_time_constant. rewrite smoothTime_ASSEMBLED.
    unfold target. simpl. replace (- (1) / 2) with (- (1 / 2)) by field. ring. }
  assert (E3 : morphProgress_step SCATTERED 1 1 = exp (- 0.8)).
  { rewrite morphProgress_step_closed, smoothTime_SCATTERED.
    unfold target. simpl. replace (- (0.8 * 1)) with (- 0.8) by lra. ring. }
  assert (L1 : exp (- 2) < exp (- (1 / 2))) by (apply exp_increasing; lra).
  assert (L2 : exp (- 2) < exp (- 0.8)) by (apply exp_increasing; lra).
  split; [exact morphProgress_step_closed |].
  split; [exact E1 |]. split; [exact E2 |].
  split; [rewrite E1, E2; lra | rewrite E1, E3; lra].
Qed.

(** C7: with no time elapsed [damp] returns the progress unchanged, for
    every progress, target and rate; and the progress obtained from 0 by
    repeated [damp] steps toward 1 with a positive rate and positive
    deltas never goes down from one step to the next, stays within 0 and
    1, and comes as close to 1 as wanted once the total elapsed time is
    large enough.  The tree's progress while ASSEMBLED is such a run, with
    rate 2. *)
Theorem damp_properties (tau : R) (dts : list R) (dt : R)
  (Htau : 0 < tau) (Hdts : Forall (Rlt 0) dts) (Hdt : 0 < dt) :
  (forall progress target lambda, damp progress target lambda 0 = progress) /\
  damp_run tau 0 dts <= damp_run tau 0 (dts ++ [dt]) /\
  0 <= damp_run tau 0 dts <= 1 /\
  (forall eps, 0 < eps ->
     exists T, forall deltas,
       Forall (Rlt 0) deltas -> T <= elapsed deltas ->
       1 - eps < damp_run tau 0 deltas <= 1) /\
  (forall progress deltas,
     morphProgress_run ASSEMBLED progress deltas = damp_run 2 progress deltas).
Proof.
  pose proof (damp_run_bounds tau dts Htau Hdts) as Hb.
  repeat split.
  - intros. apply damp_dt_0.
  - rewrite damp_run_snoc. apply damp_step_up; lra.
  - apply Hb.
  - apply Hb.
  - intros eps Heps. exists (/ (eps * tau)). intros deltas Hpos HT.
    split; [| apply damp_run_bounds; assumption].
    rewrite damp_run_closed.
    pose proof (exp_neg_small tau eps (elapsed deltas) Htau Heps HT). lra.
  - apply morphProgress_run_ASSEMBLED.
Qed.

Lemma damp_properties_witness :
  damp_run 2 0 [1; 1] <= damp_run 2 0 ([1; 1] ++ [1]) /\
  0 <= damp_run 2 0 [1; 1] <= 1.
Proof.
  assert (H2 : 0 < 2) by lra.
  assert (H1 : 0 < 1) by lra.
  assert (Hl : Forall (Rlt 0) [1; 1]) by (repeat constructor; lra).
  pose proof (damp_properties 2 [1; 1] 1 H2 Hl H1) as [_ [Hm [Hb _]]].
  exact (conj Hm Hb).
Defined.

End MorphProps.

(** ** The shared dummy *)

Module ForEachProps.

Import THREE Spec.


(** A callback that overwrites all of the dummy stores the same matrices
    as a [map] with a fresh object for each entity. *)
Lemma forEach_dummy_imap {E : Type} (f : E -> nat -> Object3D -> Object3D) :
  (forall d i x y, f d i x = f d i y) ->
  forall data i dummy,
    fst (forEach_dummy f i data dummy)
    = imap (fun i d => f d i newObject3D) i data.
Proof.
  intros Hf. induction data as [| d rest IH]; intros i dummy.
  - reflexivity.
  - cbn [forEach_dummy imap]. specialize (IH (S i) (f d i dummy)).
    destruct (forEach_dummy f (S i) rest (f d i dummy)) as [ms dummy'].
    cbn [fst] in *. now rewrite IH, (Hf d i dummy newObject3D).
Qed.

End ForEachProps.

(** ** Interpolated positions *)

Module PositionProps.

Import THREE THREE.MathUtils ArixChristmasTree Spec MorphProps ForEachProps.
Local Open Scope R_scope.













End PositionProps.

(** ** The photo layout *)

Module PhotoProps.

Import THREE Scene Examples.
Local Open Scope R_scope.

Lemma photoLayout_from_length rng len photos : forall i drawn,
  List.length (fst (photoLayout_from rng len i photos drawn))
  = List.length photos.
Proof.
  induction photos as [| photo rest IH]; intros i drawn; [reflexivity |].
  cbn [photoLayout_from Math_random].
  specialize (IH (S i) (S (S drawn))).
  destruct (photoLayout_from rng len (S i) rest (S (S drawn))) as [entries d].
  simpl in *. now rewrite IH.
Qed.

(** Entry [k] of the layout: its scatter position comes from the two
    random values drawn for it, its tree position from its index and the
    number of photos. *)
Lemma photoLayout_from_nth rng len photos : forall i drawn k photo,
  nth_error photos k = Some photo ->
  nth_error (fst (photoLayout_from rng len i photos drawn)) k
  = Some (mkLayout (photo_scatterPos (rng (drawn + 2 * k)%nat)
                                     (rng (drawn + 2 * k + 1)%nat))
                   (photo_treePos (i + k) len) (App.id photo)).
Proof.
  induction photos as [| p rest IH]; intros i drawn k photo Hk.
  - destruct k; discriminate Hk.
  - cbn [photoLayout_from Math_random].
    specialize (IH (S i) (S (S drawn))).
    destruct (photoLayout_from rng len (S i) rest (S (S drawn))) as [entries d].
    destruct k as [| k].
    + injection Hk as ->. cbn [fst nth_error].
      replace (drawn + 2 * 0)%nat with drawn by lia.
      replace (drawn + 1)%nat with (S drawn) by lia.
      replace (i + 0)%nat with i by lia. reflexivity.
    + cbn [fst nth_error] in *. rewrite (IH k photo Hk).
      replace (S (S drawn) + 2 * k)%nat with (drawn + 2 * S k)%nat by lia.
      replace (S i + k)%nat with (i + S k)%nat by lia. reflexivity.
Qed.

Lemma photo_p_pos i len : (0 < len)%nat -> photo_p i len = INR i / INR len.
Proof.
  intros H. unfold photo_p. destruct (Nat.eqb_spec len 0); [lia | reflexivity].
Qed.


Lemma photoLayout_ids rng len photos : forall i drawn,
  map l_id (fst (photoLayout_from rng len i photos drawn)) = map App.id photos /\
  snd (photoLayout_from rng len i photos drawn)
  = (drawn + 2 * List.length photos)%nat.
Proof.
  induction photos as [| photo rest IH]; intros i drawn.
  - cbn. split; [reflexivity | lia].
  - cbn [photoLayout_from Math_random].
    specialize (IH (S i) (S (S drawn))).
    destruct (photoLayout_from rng len (S i) rest (S (S drawn))) as [entries d].
    cbn [fst snd map l_id List.length] in *. destruct IH as [IH1 IH2].
    split; [now rewrite IH1 | lia].
Qed.





End PhotoProps.

(** ** What a per-frame update depends on *)

Module UpdateProps.

Import THREE ArixChristmasTree Scene Spec Examples ForEachProps.
Local Open Scope R_scope.

Lemma Rltb_true a b : a < b -> Rltb a b = true.
Proof. intros H. unfold Rltb. destruct (Rlt_dec a b); [reflexivity | lra]. Qed.

Lemma Rltb_false a b : b <= a -> Rltb a b = false.
Proof. intros H. unfold Rltb. destruct (Rlt_dec a b); [lra | reflexivity]. Qed.

(** A snow particle in the explosion regime: everything is fixed by the
    particle, the progress and the time, except the height, which takes the
    next random value. *)
Lemma update_particle_explosion rng t time p dummy drawn :
  0.5 <= t ->
  update_particle rng t time p (dummy, drawn)
  = (mkObject3D
       (mkVector3
          (vx (initialPos p) + vx (initialPos p) / 10 * (t * 15))
          (vy (initialPos p) + (rng drawn - 0.5) * (t * 15))
          (vz (initialPos p) + vz (initialPos p) / 10 * (t * 15)))
       (Euler time time time)
       (mkVector3 (p_scale p * (1 + t)) (p_scale p * (1 + t))
                  (p_scale p * (1 + t))),
     S drawn).
Proof.
  intros Ht. unfold update_particle. rewrite (Rltb_false t 0.5 Ht).
  reflexivity.
Qed.

(** In the falling regime no random value is drawn and the dummy's
    earlier contents do not matter. *)
Lemma update_particle_falling rng t time p dummy drawn :
  t < 0.5 ->
  update_particle rng t time p (dummy, drawn)
  = (mkObject3D
       (mkVector3
          (vx (initialPos p) + sin (time + offset p) * 0.5)
          (let y := vy (initialPos p)
                    - js_rem (time * velocity p * 20 + offset p) 30 in
           if Rltb y (-15) then y + 30 else y)
          (vz (initialPos p) + cos (time + offset p) * 0.5))
       (Euler time time time)
       (mkVector3 (p_scale p * (1 + t)) (p_scale p * (1 + t))
                  (p_scale p * (1 + t))),
     drawn).
Proof.
  intros Ht. unfold update_particle. rewrite (Rltb_true t 0.5 Ht).
  reflexivity.
Qed.

(** Counterexample to C10 as stated.  The same particle at the same
    progress 1 and the same elapsed time 0 is placed at height -7.5 when
    [Math.random()] returns 0 and at height 0 when it returns 0.5. *)
Lemma update_particle_not_determined :
  fst (update_particle rng_step 1 0 flake (newObject3D, 0%nat))
  <> fst (update_particle rng_step 1 0 flake (newObject3D, 1%nat)).
Proof.
  rewrite !update_particle_explosion by lra.
  cbn [fst]. intros H.
  apply (f_equal (fun o => vy (position o))) in H.
  cbn [position vy initialPos flake rng_step] in H. lra.
Qed.

Lemma update_needle_fresh t time d i dummy1 dummy2 :
  update_needle t time d i dummy1 = update_needle t time d i dummy2.
Proof. unfold update_needle. destruct (Rgtb t 0.8); reflexivity. Qed.

Lemma update_ribbon_fresh t time d i dummy1 dummy2 :
  update_ribbon t time d i dummy1 = update_ribbon t time d i dummy2.
Proof. reflexivity. Qed.

Lemma update_ornament_fresh t time d i dummy1 dummy2 :
  update_ornament t time d i dummy1 = update_ornament t time d i dummy2.
Proof. reflexivity. Qed.

(** The matrices a frame of the tree stores for needles, ribbon and
    ornaments: each one is computed from its own entity and index. *)
Lemma useFrame_imap state data p star time delta :
  let fr := useFrame state data p star time delta in
  let t := morphProgress_step state p delta in
  f_needles fr
  = imap (fun i d => update_needle t time d i newObject3D) 0 (needlesData data) /\
  f_ribbon fr
  = imap (fun i d => update_ribbon t time d i newObject3D) 0 (ribbonData data) /\
  f_gold fr
  = imap (fun i d => update_ornament t time d i newObject3D) 0 (goldData data) /\
  f_red fr
  = imap (fun i d => update_ornament t time d i newObject3D) 0 (redData data).
Proof.
  intros fr t. unfold fr, useFrame. fold t.
  pose proof (forEach_dummy_imap (update_needle t time)
                (update_needle_fresh t time) (needlesData data) 0%nat) as Hn.
  pose proof (forEach_dummy_imap (update_ribbon t time)
                (update_ribbon_fresh t time) (ribbonData data) 0%nat) as Hr.
  pose proof (forEach_dummy_imap (update_ornament t time)
                (update_ornament_fresh t time)) as Ho.
  destruct (forEach_dummy (update_needle t time) 0 (needlesData data) newObject3D)
    as [needles d1] eqn:E1.
  destruct (forEach_dummy (update_ribbon t time) 0 (ribbonData data) d1)
    as [ribbon d2] eqn:E2.
  destruct (forEach_dummy (update_ornament t time) 0 (goldData data) d2)
    as [gold d3] eqn:E3.
  destruct (forEach_dummy (update_ornament t time) 0 (redData data) d3)
    as [red d4] eqn:E4.
  destruct (forEach_dummy (update_light t time) 0 (lightsData data) d4)
    as [lights d5].
  cbn [f_needles f_ribbon f_gold f_red].
  rewrite <- (Hn newObject3D), <- (Hr d1), <- (Ho (goldData data) 0%nat d2),
    <- (Ho (redData data) 0%nat d3), E1, E2, E3, E4.
  repeat split.
Qed.

(** C10, amended: the transform written for a needle, a ribbon entity or
    an ornament is fixed by the entity, its index, the morph progress and
    the elapsed time, whatever the shared dummy held before, so the
    matrices a frame stores for these groups are a [map] over the entities;
    for a light this holds of position and scale, its rotation being what
    the dummy held; for a snow particle it holds in the falling regime
    (progress below 0.5), where no random value is drawn; in the explosion
    regime (progress 0.5 or more) x, z, rotation and scale are fixed in the
    same way and the height is the initial height plus
    [(Math.random() - 0.5) * 15 * progress], drawn anew at each update. *)
Theorem update_determined :
  (forall t time d i dummy1 dummy2,
     update_needle t time d i dummy1 = update_needle t time d i dummy2) /\
  (forall t time d i dummy1 dummy2,
     update_ribbon t time d i dummy1 = update_ribbon t time d i dummy2) /\
  (forall t time d i dummy1 dummy2,
     update_ornament t time d i dummy1 = update_ornament t time d i dummy2) /\
  (forall state data p star time delta,
     let fr := useFrame state data p star time delta in
     let t := morphProgress_step state p delta in
     f_needles fr
     = imap (fun i d => update_needle t time d i newObject3D) 0 (needlesData data) /\
     f_ribbon fr
     = imap (fun i d => update_ribbon t time d i newObject3D) 0 (ribbonData data) /\
     f_gold fr
     = imap (fun i d => update_ornament t time d i newObject3D) 0 (goldData data) /\
     f_red fr
     = imap (fun i d => update_ornament t time d i newObject3D) 0 (redData data)) /\
  (forall t time d i dummy1 dummy2,
     position (update_light t time d i dummy1)
     = position (update_light t time d i dummy2) /\
     scale (update_light t time d i dummy1)
     = scale (update_light t time d i dummy2) /\
     rotation (update_light t time d i dummy1) = rotation dummy1) /\
  (forall t time rng1 rng2 p dummy1 dummy2 drawn1 drawn2,
     t < 0.5 ->
     fst (update_particle rng1 t time p (dummy1, drawn1))
     = fst (update_particle rng2 t time p (dummy2, drawn2)) /\
     snd (update_particle rng1 t time p (dummy1, drawn1)) = drawn1) /\
  (forall t time rng p dummy drawn,
     0.5 <= t ->
     let o := fst (update_particle rng t time p (dummy, drawn)) in
     vx (position o) = vx (initialPos p) + vx (initialPos p) / 10 * (t * 15) /\
     vy (position o) = vy (initialPos p) + (rng drawn - 0.5) * (t * 15) /\
     vz (position o) = vz (initialPos p) + vz (initialPos p) / 10 * (t * 15) /\
     rotation o = Euler time time time /\
     scale o = mkVector3 (p_scale p * (1 + t)) (p_scale p * (1 + t))
                         (p_scale p * (1 + t)) /\
     snd (update_particle rng t time p (dummy, drawn)) = S drawn).
Proof.
  split; [exact update_needle_fresh |].
  split; [exact update_ribbon_fresh |].
  split; [exact update_ornament_fresh |].
  split; [exact useFrame_imap |].
  split; [| split].
  - intros. repeat apply conj; reflexivity.
  - intros t time rng1 rng2 p dummy1 dummy2 drawn1 drawn2 Ht.
    rewrite !update_particle_falling by exact Ht. split; reflexivity.
  - intros t time rng p dummy drawn Ht o. unfold o.
    rewrite update_particle_explosion by exact Ht.
    repeat apply conj; reflexivity.
Qed.

Lemma update_determined_witness :
  0 < 0.5 /\
  fst (update_particle rng_zero 0 1 flake (newObject3D, 0%nat))
  = fst (update_particle rng_step 0 1 flake
           (lookAt newObject3D 0 0 0, 1%nat)) /\
  snd (update_particle rng_zero 0 1 flake (newObject3D, 0%nat)) = 0%nat.
Proof.
  assert (H : 0 < 0.5) by lra.
  destruct update_determined as [_ [_ [_ [_ [_ [Hfall _]]]]]].
  exact (conj H (Hfall 0 1 rng_zero rng_step flake newObject3D
                       (lookAt newObject3D 0 0 0) 0%nat 1%nat H)).
Defined.

End UpdateProps.

(** * Further properties of the code *)

(** ** The classifier: domain and symmetries *)

Module ClassifierMore.

Import HandController Spec Notions ClassifierProps.
Local Open Scope float_scope.

Lemma analyzeGesture_firstn lm :
  analyzeGesture lm = analyzeGesture (firstn 21 lm).
Proof.
  destruct (Nat.lt_ge_cases (List.length lm) 21) as [H | H].
  - rewrite firstn_all2 by lia. reflexivity.
  - do 21 (destruct lm as [| ? lm]; [simpl in H; lia |]). reflexivity.
Qed.

Lemma count4_firstn (test : list Point -> nat -> bool) lm :
  (forall i, (i < 4)%nat -> test (firstn 21 lm) i = test lm i) ->
  count4 (test (firstn 21 lm)) = count4 (test lm).
Proof.
  intros H. unfold count4. f_equal. apply filter_ext_in.
  intros i Hi. apply H. simpl in Hi. lia.
Qed.

Lemma pt_firstn lm k : (k < 21)%nat -> pt (firstn 21 lm) k = pt lm k.
Proof.
  intros Hk. unfold pt.
  rewrite <- (firstn_skipn 21 lm) at 2.
  destruct (Nat.lt_ge_cases k (List.length (firstn 21 lm))) as [H | H].
  - now rewrite app_nth1.
  - rewrite nth_overflow by lia.
    rewrite length_firstn in H.
    rewrite nth_overflow; [reflexivity |].
    rewrite length_app, length_firstn.
    assert (List.length (skipn 21 lm) = 0%nat) by (rewrite length_skipn; lia).
    lia.
Qed.

Lemma idx_tips_lt i : (idx tips i < 21)%nat.
Proof. unfold idx, tips. do 4 (destruct i as [| i]; [simpl; lia |]). destruct i; simpl; lia. Qed.

Lemma idx_bases_lt i : (idx bases i < 21)%nat.
Proof. unfold idx, bases. do 4 (destruct i as [| i]; [simpl; lia |]). destruct i; simpl; lia. Qed.

(** The cascade on any set of at least 21 points. *)
Lemma analyzeGesture_ge21 lm :
  (21 <= List.length lm)%nat ->
  analyzeGesture lm =
  Some (if (3 <=? count4 (folded_b lm))%nat then FIST
        else if (3 <=? count4 (extended_b lm))%nat then OPEN
        else if pinch_dist lm <? 0.002 then PINCH
        else NONE).
Proof.
  intros H. rewrite analyzeGesture_firstn, analyzeGesture_21
    by (rewrite length_firstn; lia).
  rewrite (count4_firstn folded_b), (count4_firstn extended_b).
  - unfold pinch_dist. rewrite !pt_firstn by lia. reflexivity.
  - intros i _. unfold extended_b.
    rewrite !pt_firstn by (apply idx_tips_lt || apply idx_bases_lt || lia).
    reflexivity.
  - intros i _. unfold folded_b.
    rewrite !pt_firstn by (apply idx_tips_lt || apply idx_bases_lt || lia).
    reflexivity.
Qed.

(** X1: the classifier returns a symbol exactly when the landmark set
    has at least 21 points and throws on a shorter one; points past the
    21st are never read. *)
Theorem analyzeGesture_defined (lm : list Point) :
  (analyzeGesture lm = None <-> (List.length lm < 21)%nat) /\
  ((21 <= List.length lm)%nat -> exists g, analyzeGesture lm = Some g) /\
  analyzeGesture lm = analyzeGesture (firstn 21 lm).
Proof.
  split; [| split].
  - split.
    + intros Hn. destruct (Nat.lt_ge_cases (List.length lm) 21) as [H | H];
        [exact H |].
      rewrite (analyzeGesture_ge21 lm H) in Hn. discriminate Hn.
    + apply analyzeGesture_short.
  - intros H. rewrite (analyzeGesture_ge21 lm H). eexists. reflexivity.
  - apply analyzeGesture_firstn.
Qed.

Lemma analyzeGesture_defined_witness :
  (21 <= List.length (Examples.hand (mkPoint 0.2 0) (mkPoint 1 1) ++ [mkPoint 5 5]))%nat /\
  exists g,
    analyzeGesture (Examples.hand (mkPoint 0.2 0) (mkPoint 1 1) ++ [mkPoint 5 5])
    = Some g.
Proof.
  assert (H : (21 <= List.length (Examples.hand (mkPoint 0.2 0) (mkPoint 1 1)
                                    ++ [mkPoint 5 5]))%nat) by (simpl; lia).
  exact (conj H (proj1 (proj2 (analyzeGesture_defined _)) H)).
Defined.

End ClassifierMore.

(** ** The classifier: what the result depends on *)

Module ClassifierSymmetry.

Import HandController Spec Notions ClassifierProps ClassifierMore.
Local Open Scope float_scope.

Lemma count4_ext f g :
  (forall i, (i < 4)%nat -> f i = g i) -> count4 f = count4 g.
Proof.
  intros H. unfold count4. f_equal. apply filter_ext_in.
  intros i Hi. apply H. simpl in Hi. lia.
Qed.

(** When the finger tests agree on two sets of at least 21 points, FIST
    and OPEN are returned on the one exactly when they are on the other;
    when the pinch distances agree too, the results are equal. *)
Lemma analyzeGesture_same_counts lm lm' :
  (21 <= List.length lm)%nat -> (21 <= List.length lm')%nat ->
  (forall i, (i < 4)%nat -> folded_b lm' i = folded_b lm i) ->
  (forall i, (i < 4)%nat -> extended_b lm' i = extended_b lm i) ->
  (analyzeGesture lm' = Some FIST <-> analyzeGesture lm = Some FIST) /\
  (analyzeGesture lm' = Some OPEN <-> analyzeGesture lm = Some OPEN) /\
  (pinch_dist lm' = pinch_dist lm -> analyzeGesture lm' = analyzeGesture lm).
Proof.
  intros H H' Hf He.
  rewrite (analyzeGesture_ge21 lm H), (analyzeGesture_ge21 lm' H').
  rewrite (count4_ext _ _ Hf), (count4_ext _ _ He).
  destruct (3 <=? count4 (folded_b lm))%nat;
    [repeat split; intros; (reflexivity || assumption) |].
  destruct (3 <=? count4 (extended_b lm))%nat;
    [repeat split; intros; (reflexivity || assumption) |].
  split; [| split].
  - destruct (pinch_dist lm' <? 0.002), (pinch_dist lm <? 0.002);
      split; intros E; discriminate E.
  - destruct (pinch_dist lm' <? 0.002), (pinch_dist lm <? 0.002);
      split; intros E; discriminate E.
  - intros ->. reflexivity.
Qed.

(** The squared distance of a pair is a function of the two coordinate
    differences. *)
Lemma dist2_same_offsets lm lm' j k :
  In (j, k) read_pairs -> same_offsets lm lm' ->
  dist2 (pt lm' j) (pt lm' k) = dist2 (pt lm j) (pt lm k).
Proof.
  intros Hin Hoff. unfold same_offsets in Hoff.
  rewrite Forall_forall in Hoff.
  destruct (Hoff (j, k) Hin) as [Hx Hy]. cbn [fst snd] in Hx, Hy.
  unfold dist2. now rewrite Hx, Hy.
Qed.

Lemma tip_wrist_read i : (i < 4)%nat -> In (idx tips i, 0%nat) read_pairs.
Proof.
  intros Hi. do 4 (destruct i as [| i]; [cbn; tauto |]). lia.
Qed.

Lemma base_wrist_read i : (i < 4)%nat -> In (idx bases i, 0%nat) read_pairs.
Proof.
  intros Hi. do 4 (destruct i as [| i]; [cbn; tauto |]). lia.
Qed.

(** X3: the classifier reads the landmarks through coordinate differences
    only, those of the tips and bases to the wrist and of the thumb tip to
    the index tip.  Two sets of the same length in which these differences,
    as the doubles the code computes, are the same get the same result, an
    exception included; so moving a hand in the image leaves its
    classification unchanged as long as the move does not change the rounded
    differences. *)
Theorem analyzeGesture_same_offsets (lm lm' : list Point)
  (Hlen : List.length lm' = List.length lm) (Hoff : same_offsets lm lm') :
  analyzeGesture lm' = analyzeGesture lm.
Proof.
  destruct (Nat.lt_ge_cases (List.length lm) 21) as [H | H].
  - rewrite !analyzeGesture_short by (rewrite ?Hlen; exact H). reflexivity.
  - assert (H' : (21 <= List.length lm')%nat) by (rewrite Hlen; exact H).
    apply (analyzeGesture_same_counts lm lm' H H').
    + intros i Hi. unfold folded_b.
      rewrite (dist2_same_offsets lm lm' _ _ (tip_wrist_read i Hi) Hoff).
      rewrite (dist2_same_offsets lm lm' _ _ (base_wrist_read i Hi) Hoff).
      reflexivity.
    + intros i Hi. unfold extended_b.
      rewrite (dist2_same_offsets lm lm' _ _ (tip_wrist_read i Hi) Hoff).
      rewrite (dist2_same_offsets lm lm' _ _ (base_wrist_read i Hi) Hoff).
      reflexivity.
    + unfold pinch_dist. apply dist2_same_offsets; [cbn; tauto | exact Hoff].
Qed.

Lemma analyzeGesture_same_offsets_witness :
  let lm := Examples.grid_hand in
  List.length (map (translate 0.25 0.5) lm) = List.length lm /\
  same_offsets lm (map (translate 0.25 0.5) lm) /\
  analyzeGesture (map (translate 0.25 0.5) lm) = analyzeGesture lm.
Proof.
  intros lm.
  assert (Hlen : List.length (map (translate 0.25 0.5) lm) = List.length lm)
    by reflexivity.
  assert (Hoff : same_offsets lm (map (translate 0.25 0.5) lm)).
  { unfold same_offsets, read_pairs.
    repeat (apply Forall_cons; [split; vm_compute; reflexivity |]).
    apply Forall_nil. }
  exact (conj Hlen (conj Hoff (analyzeGesture_same_offsets lm _ Hlen Hoff))).
Defined.

(** The sums of a translation are rounded, and the rounded differences
    need not survive it: [drift_hand] is not a pinch, and moved by
    (0.5, 0.5) it is one. *)
Example analyzeGesture_translate_rounds :
  analyzeGesture Examples.drift_hand = Some NONE /\
  analyzeGesture (map (translate 0.5 0.5) Examples.drift_hand) = Some PINCH.
Proof. split; vm_compute; reflexivity. Qed.

Lemma pt_same_but_thumb lm lm' k :
  same_but_thumb lm lm' -> k <> 4%nat -> pt lm' k = pt lm k.
Proof.
  intros [Hlen Hnth] Hk. unfold pt.
  destruct (Nat.lt_ge_cases k (List.length lm)) as [H | H].
  - specialize (Hnth k Hk).
    rewrite (nth_error_nth' lm (mkPoint 0 0) H) in Hnth.
    rewrite (nth_error_nth' lm' (mkPoint 0 0)) in Hnth by lia.
    now injection Hnth.
  - rewrite !nth_overflow by lia. reflexivity.
Qed.

Lemma idx_tips_not_thumb i : idx tips i <> 4%nat.
Proof.
  unfold idx, tips. do 4 (destruct i as [| i]; [simpl; lia |]).
  destruct i; simpl; lia.
Qed.

Lemma idx_bases_not_thumb i : idx bases i <> 4%nat.
Proof.
  unfold idx, bases. do 4 (destruct i as [| i]; [simpl; lia |]).
  destruct i; simpl; lia.
Qed.

(** X5: the thumb tip has no say in FIST and OPEN ([thumbTucked] is
    computed and dropped): two sets of at least 21 points that differ at
    landmark 4 only give FIST together, and OPEN together. *)
Theorem analyzeGesture_ignores_thumb (lm lm' : list Point)
  (H21 : (21 <= List.length lm)%nat) (Hsame : same_but_thumb lm lm') :
  (analyzeGesture lm' = Some FIST <-> analyzeGesture lm = Some FIST) /\
  (analyzeGesture lm' = Some OPEN <-> analyzeGesture lm = Some OPEN).
Proof.
  assert (H' : (21 <= List.length lm')%nat) by (destruct Hsame as [<- _]; exact H21).
  destruct (analyzeGesture_same_counts lm lm' H21 H') as [Hf [Ho _]].
  - intros i _. unfold folded_b.
    rewrite !(pt_same_but_thumb lm lm')
      by (exact Hsame || apply idx_tips_not_thumb || apply idx_bases_not_thumb || lia).
    reflexivity.
  - intros i _. unfold extended_b.
    rewrite !(pt_same_but_thumb lm lm')
      by (exact Hsame || apply idx_tips_not_thumb || apply idx_bases_not_thumb || lia).
    reflexivity.
  - split; assumption.
Qed.

Lemma analyzeGesture_ignores_thumb_witness :
  analyzeGesture (Examples.hand (mkPoint 0.2 0) (mkPoint 0 0)) = Some OPEN.
Proof.
  assert (H21 : (21 <= List.length (Examples.hand (mkPoint 0.2 0) (mkPoint 1 1)))%nat)
    by (simpl; lia).
  assert (Hs : same_but_thumb (Examples.hand (mkPoint 0.2 0) (mkPoint 1 1))
                              (Examples.hand (mkPoint 0.2 0) (mkPoint 0 0))).
  { split; [reflexivity |]. intros k Hk.
    do 4 (destruct k as [| k]; [reflexivity |]).
    destruct k as [| k]; [congruence | reflexivity]. }
  apply (proj2 (analyzeGesture_ignores_thumb _ _ H21 Hs)).
  vm_compute. reflexivity.
Defined.

End ClassifierSymmetry.

(** ** From a video frame to the scene state *)

Module PipelineMore.

Import HandController DetectLoop Spec Notions ClassifierProps ClassifierMore.

(** X6: a run of [n + 1] equal raw symbols leaves [lastGestureRef] at
    that symbol and the frame counter at [n] when the symbol is new, and
    raised by [n + 1] when it repeats the symbol held before. *)
Theorem debounce_run_repeat (refs : Refs) (g : HandGesture) (n : nat) :
  fst (debounce_run refs (repeat g (S n)))
  = mkRefs g (if HandGesture_eqb g (lastGestureRef refs)
              then gestureFramesRef refs + S n
              else n).
Proof.
  revert refs. induction n as [| n IH]; intros refs.
  - cbn [repeat debounce_run]. unfold debounce.
    destruct (HandGesture_eqb_spec g (lastGestureRef refs)) as [<- | _];
      cbn [fst]; [f_equal; lia | reflexivity].
  - change (repeat g (S (S n))) with (g :: repeat g (S n)).
    cbn [debounce_run].
    pose proof (DebounceProps.debounce_last refs g) as Hl.
    assert (Hf : gestureFramesRef (fst (debounce refs g))
                 = if HandGesture_eqb g (lastGestureRef refs)
                   then S (gestureFramesRef refs) else 0%nat).
    { unfold debounce.
      destruct (HandGesture_eqb g (lastGestureRef refs)); reflexivity. }
    destruct (debounce refs g) as [refs1 out]. cbn [fst] in Hl, Hf.
    specialize (IH refs1).
    destruct (debounce_run refs1 (repeat g (S n))) as [refs2 outs].
    cbn [fst] in *. rewrite IH, Hl, Hf.
    destruct (HandGesture_eqb_spec g g) as [_ | Hne]; [| congruence].
    destruct (HandGesture_eqb g (lastGestureRef refs)); f_equal; lia.
Qed.

Lemma at_index_0 lm :
  (21 <= List.length lm)%nat -> at_index lm 0 = Some (pt lm 0).
Proof. destruct lm; simpl; [lia | reflexivity]. Qed.

(** X7: with a hand in the frame, [detect] hands [onGesture] the
    classifier's symbol for the first hand, undelayed, with the position of
    its wrist, and records the symbol in [lastGestureRef]; further hands
    are not looked at; and when the classifier throws, [detect] throws. *)
Theorem detect_hand (refs : Refs) (lm : list Point) (others : list (list Point)) :
  (forall g, analyzeGesture lm = Some g ->
     detect refs (Some (lm :: others))
     = Some (fst (debounce refs g),
             (g, Some (mkHandData (px (pt lm 0)) (py (pt lm 0)) lm))) /\
     lastGestureRef (fst (debounce refs g)) = g) /\
  (analyzeGesture lm = None -> detect refs (Some (lm :: others)) = None) /\
  detect refs (Some (lm :: others)) = detect refs (Some [lm]).
Proof.
  split; [| split].
  - intros g Hg.
    assert (H21 : (21 <= List.length lm)%nat).
    { destruct (Nat.lt_ge_cases (List.length lm) 21) as [H | H]; [| exact H].
      rewrite (analyzeGesture_short lm H) in Hg. discriminate Hg. }
    split; [| apply DebounceProps.debounce_last].
    unfold detect. rewrite Hg. cbn [obind].
    pose proof (DebounceProps.debounce_out refs g) as Ho.
    destruct (debounce refs g) as [refs' out]. cbn [snd fst] in *. subst out.
    rewrite (at_index_0 lm H21). reflexivity.
  - intros Hn. unfold detect. rewrite Hn. reflexivity.
  - reflexivity.
Qed.

Lemma detect_hand_witness :
  detect initialRefs
         (Some [Examples.hand (mkPoint 0.1 0) (mkPoint 1 1);
                Examples.hand (mkPoint 0.2 0) (mkPoint 1 1)])
  = Some (mkRefs FIST 0,
          (FIST, Some (mkHandData 0 0 (Examples.hand (mkPoint 0.1 0) (mkPoint 1 1))))).
Proof.
  exact (proj1 (proj1 (detect_hand initialRefs
                         (Examples.hand (mkPoint 0.1 0) (mkPoint 1 1))
                         [Examples.hand (mkPoint 0.2 0) (mkPoint 1 1)])
                      FIST eq_refl)).
Defined.

(** X8: one frame is enough.  Whatever was seen before, a frame whose
    first hand passes the code's FIST test (at least three tips closer to
    the wrist than 1.2 times their base, in doubles) sets the scene to
    ASSEMBLED, and one that fails it and passes the OPEN test (at least
    three tips farther than 1.5 times) sets it to SCATTERED; the app then
    shows that gesture and the wrist position, and the photos array
    stays. *)
Theorem one_frame_sets_scene (refs : Refs) (st : App.State)
  (lm : list Point) (others : list (list Point))
  (H21 : (21 <= List.length lm)%nat) :
  (fist_condition lm ->
   exists refs',
     App.onDetection refs st (Some (lm :: others))
     = Some (refs', App.mkState ASSEMBLED FIST
                      (Some (px (pt lm 0), py (pt lm 0))) (App.photos st)
                      (App.photosRef st))) /\
  (~ fist_condition lm -> open_condition lm ->
   exists refs',
     App.onDetection refs st (Some (lm :: others))
     = Some (refs', App.mkState SCATTERED OPEN
                      (Some (px (pt lm 0), py (pt lm 0))) (App.photos st)
                      (App.photosRef st))).
Proof.
  assert (H21' : List.length (firstn 21 lm) = 21%nat)
    by (rewrite length_firstn; lia).
  split.
  - intros Hc.
    assert (Hg : analyzeGesture lm = Some FIST).
    { rewrite (analyzeGesture_ge21 lm H21).
      unfold fist_condition in Hc.
      rewrite (at_least_3_of_4_count _ _ (folded_b_spec lm)) in Hc.
      destruct (Nat.leb_spec 3 (count4 (folded_b lm))); [reflexivity | lia]. }
    exists (fst (debounce refs FIST)). unfold App.onDetection.
    rewrite (proj1 (proj1 (detect_hand refs lm others) FIST Hg)). reflexivity.
  - intros Hnf Hc.
    assert (Hg : analyzeGesture lm = Some OPEN).
    { rewrite (analyzeGesture_ge21 lm H21).
      unfold fist_condition in Hnf. unfold open_condition in Hc.
      rewrite (at_least_3_of_4_count _ _ (folded_b_spec lm)) in Hnf.
      rewrite (at_least_3_of_4_count _ _ (extended_b_spec lm)) in Hc.
      destruct (Nat.leb_spec 3 (count4 (folded_b lm))); [contradiction |].
      destruct (Nat.leb_spec 3 (count4 (extended_b lm))); [reflexivity | lia]. }
    exists (fst (debounce refs OPEN)). unfold App.onDetection.
    rewrite (proj1 (proj1 (detect_hand refs lm others) OPEN Hg)). reflexivity.
Qed.

Lemma one_frame_sets_scene_witness :
  exists refs',
    App.onDetection (mkRefs FIST 7) App.initialState
      (Some [Examples.hand (mkPoint 0.2 0) (mkPoint 1 1)])
    = Some (refs', App.mkState SCATTERED OPEN (Some (0, 0)%float) [] 0).
Proof.
  assert (H21 : (21 <= List.length (Examples.hand (mkPoint 0.2 0) (mkPoint 1 1)))%nat)
    by (simpl; lia).
  apply (proj2 (one_frame_sets_scene (mkRefs FIST 7) App.initialState
                  (Examples.hand (mkPoint 0.2 0) (mkPoint 1 1)) [] H21)).
  - unfold fist_condition, at_least_3_of_4, folded.
    intros [[H _] | [[H _] | [[H _] | [H _]]]]; vm_compute in H; discriminate H.
  - unfold open_condition, at_least_3_of_4, extended. left.
    repeat split; vm_compute; reflexivity.
Defined.

(** X9: a video frame is classified at most once.  Without a video
    element or a landmarker nothing happens; and after a run of [detect]
    that called [onGesture] for the video time [currentTime], any further
    run at that time calls nothing and changes no ref. *)
Theorem detect_tick_once (st : LoopRefs) (currentTime : Q) (landmarker : bool)
  (result : option (list (list Point))) :
  detect_tick st None landmarker result = Some (st, None) /\
  detect_tick st (Some currentTime) false result = Some (st, None) /\
  forall st' out,
    detect_tick st (Some currentTime) landmarker result = Some (st', Some out) ->
    ~ (currentTime == lastVideoTimeRef st)%Q /\
    lastVideoTimeRef st' = currentTime /\
    detect (gestureRefs st) result = Some (gestureRefs st', out) /\
    forall landmarker' result',
      detect_tick st' (Some currentTime) landmarker' result' = Some (st', None).
Proof.
  split; [reflexivity |]. split.
  { unfold detect_tick. now rewrite andb_false_r. }
  intros st' out H. unfold detect_tick in H.
  destruct (Qeq_bool currentTime (lastVideoTimeRef st)) eqn:E; cbn [negb andb] in H;
    [discriminate H |].
  destruct landmarker; [| discriminate H].
  destruct (detect (gestureRefs st) result) as [[refs' o] |]; [| discriminate H].
  injection H as <- <-. cbn [lastVideoTimeRef gestureRefs].
  split; [| split; [reflexivity | split; [reflexivity |]]].
  - intros Heq. apply Qeq_bool_iff in Heq. congruence.
  - intros landmarker' result'. unfold detect_tick. cbn [lastVideoTimeRef].
    now rewrite Qeq_bool_refl.
Qed.

Lemma detect_tick_once_witness :
  detect_tick initialLoopRefs (Some 0.04%Q) true None
  = Some (mkLoopRefs initialRefs 0.04%Q, Some (NONE, None)) /\
  detect_tick (mkLoopRefs initialRefs 0.04%Q) (Some 0.04%Q) true
              (Some [Examples.hand (mkPoint 0.2 0) (mkPoint 1 1)])
  = Some (mkLoopRefs initialRefs 0.04%Q, None).
Proof.
  split; [reflexivity |].
  exact (proj2 (proj2 (proj2 (proj2 (proj2
           (detect_tick_once initialLoopRefs 0.04%Q true None))
           (mkLoopRefs initialRefs 0.04%Q) (NONE, None) eq_refl)))
           true (Some [Examples.hand (mkPoint 0.2 0) (mkPoint 1 1)])).
Defined.

End PipelineMore.

(** ** The app state *)

Module AppMore.

Import App Notions.

(** X10: uploads, gestures and the photos array.  An upload event
    without a file list changes nothing.  One with a file list stores a
    new array, even when the list is empty and the photos are the same as
    before, so the state is not the one before.  Two uploads leave the
    photos one upload of both batches would; an upload keeps the scene
    state, the gesture and the hand position and appends one photo per
    file, ids in order; a gesture keeps the photos array; and an upload and
    a gesture give the same state in either order.  For [Scene], whose
    layout is memoized on the array: after a gesture or an upload event
    without a file list it returns the stored layout and draws nothing;
    after an upload with a file list, an empty one included, it computes the
    layout again from fresh random values, two per photo. *)
Theorem handleFileUpload_composes (st : State)
  (a b : list (string * string)) (g : HandGesture)
  (d : option HandController.HandData)
  (rng : nat -> R) (stored : list Scene.Layout) (drawn : nat) :
  handleFileUpload st None = st /\
  (photos (handleFileUpload st (Some [])) = photos st /\
   photosRef (handleFileUpload st (Some [])) <> photosRef st /\
   handleFileUpload st (Some []) <> st) /\
  photos (handleFileUpload (handleFileUpload st (Some a)) (Some b))
  = photos (handleFileUpload st (Some (a ++ b))) /\
  treeState (handleFileUpload st (Some a)) = treeState st /\
  gesture (handleFileUpload st (Some a)) = gesture st /\
  handData (handleFileUpload st (Some a)) = handData st /\
  map App.id (photos (handleFileUpload st (Some a)))
  = map App.id (photos st) ++ map fst a /\
  (photos (handleGesture st g d) = photos st /\
   photosRef (handleGesture st g d) = photosRef st) /\
  handleFileUpload (handleGesture st g d) (Some a)
  = handleGesture (handleFileUpload st (Some a)) g d /\
  (let memo := Some (photosRef st, stored) in
   Scene.render_photoLayout rng memo (handleGesture st g d) drawn
   = ((photosRef st, stored), drawn) /\
   Scene.render_photoLayout rng memo (handleFileUpload st None) drawn
   = ((photosRef st, stored), drawn) /\
   Scene.render_photoLayout rng memo (handleFileUpload st (Some a)) drawn
   = ((S (photosRef st),
       fst (Scene.photoLayout rng (photos (handleFileUpload st (Some a))) drawn)),
      (drawn + 2 * (List.length (photos st) + List.length a))%nat)).
Proof.
  assert (Hne : forall n : nat, S n <> n) by (intros n; lia).
  repeat apply conj; try reflexivity.
  - unfold handleFileUpload. cbn [map photos]. apply app_nil_r.
  - cbn [handleFileUpload photosRef map]. apply Hne.
  - intros E. apply (f_equal photosRef) in E.
    cbn [handleFileUpload photosRef map] in E. exact (Hne _ E).
  - unfold handleFileUpload. cbn [treeState gesture handData photos].
    now rewrite map_app, app_assoc.
  - unfold handleFileUpload. cbn [photos].
    rewrite map_app, map_map. reflexivity.
  - unfold Scene.render_photoLayout. cbn [handleGesture photosRef].
    now rewrite Nat.eqb_refl.
  - unfold Scene.render_photoLayout. cbn [handleFileUpload].
    now rewrite Nat.eqb_refl.
  - unfold Scene.render_photoLayout. cbn [handleFileUpload photosRef photos].
    destruct (Nat.eqb_spec (photosRef st) (S (photosRef st))) as [E | _];
      [exfalso; lia |].
    pose proof (PhotoProps.photoLayout_ids rng
                  (List.length (photos st ++ map (fun f => mkPhotoData (fst f) (snd f) (0, 0, 0)%R (0, 0, 0)%R) a))
                  (photos st ++ map (fun f => mkPhotoData (fst f) (snd f) (0, 0, 0)%R (0, 0, 0)%R) a)
                  0 drawn) as [_ Hd].
    unfold Scene.photoLayout.
    destruct (Scene.photoLayout_from rng _ 0 _ drawn) as [layout drawn'].
    cbn [fst snd] in *. rewrite Hd, length_app, length_map. reflexivity.
Qed.

Lemma handle_all_snoc st calls c :
  handle_all st (calls ++ [c])
  = handleGesture (handle_all st calls) (fst c) (snd c).
Proof. unfold handle_all. now rewrite fold_left_app. Qed.

(** X11: after any stream of gestures the scene state is the one asked
    for by the last FIST or OPEN in it, or the starting state when there
    is none; so gestures never lead into PHOTO_ZOOM, and the photos are
    never touched. *)
Theorem scene_follows_last_command (st : State)
  (calls : list (HandGesture * option HandController.HandData)) :
  treeState (handle_all st calls)
  = match last_command (map fst calls) with
    | Some s => s
    | None => treeState st
    end /\
  (treeState st <> PHOTO_ZOOM -> treeState (handle_all st calls) <> PHOTO_ZOOM) /\
  photos (handle_all st calls) = photos st.
Proof.
  assert (H : treeState (handle_all st calls)
              = match last_command (map fst calls) with
                | Some s => s
                | None => treeState st
                end /\
              photos (handle_all st calls) = photos st).
  { revert st. induction calls as [| [g d] rest IH]; intros st.
    - split; reflexivity.
    - change (handle_all st ((g, d) :: rest))
        with (handle_all (handleGesture st g d) rest).
      destruct (IH (handleGesture st g d)) as [IH1 IH2].
      rewrite IH1, IH2. cbn [map fst last_command].
      split; [| reflexivity].
      destruct (last_command (map fst rest)); [reflexivity |].
      destruct g; reflexivity. }
  destruct H as [H1 H2]. split; [exact H1 | split; [| exact H2]].
  intros Hz. rewrite H1.
  assert (Hc : forall gs s, last_command gs = Some s -> s <> PHOTO_ZOOM).
  { induction gs as [| g gs IHg]; intros s Hs; [discriminate Hs |].
    cbn [last_command] in Hs.
    destruct (last_command gs) as [s' |].
    - injection Hs as <-. now apply IHg.
    - destruct g; cbn in Hs; try discriminate Hs; injection Hs as <-;
        discriminate. }
  destruct (last_command (map fst calls)) eqn:E; [now apply (Hc _ _ E) | exact Hz].
Qed.

Lemma scene_follows_last_command_witness :
  treeState (handle_all initialState
               [(OPEN, None); (PINCH, None); (FIST, None); (NONE, None)])
  <> PHOTO_ZOOM.
Proof.
  apply (proj1 (proj2 (scene_follows_last_command initialState
                         [(OPEN, None); (PINCH, None); (FIST, None); (NONE, None)]))).
  discriminate.
Defined.

End AppMore.

(** ** The morph progress over frames *)

Module MorphMore.

Import THREE THREE.MathUtils ArixChristmasTree Spec Notions MorphProps.
Local Open Scope R_scope.

Lemma smoothTime_pos state : 0 < smoothTime state.
Proof. destruct state; unfold smoothTime; simpl; lra. Qed.

Lemma target_unit state : 0 <= target state <= 1.
Proof. destruct state; unfold target; simpl; lra. Qed.

Lemma exp_neg_le_1 x : 0 <= x -> 0 < exp (- x) <= 1.
Proof.
  intros [H | <-]; split; try apply exp_pos.
  - left. now apply exp_neg_lt_1.
  - rewrite Ropp_0, exp_0. lra.
Qed.

(** A [damp] step with a positive rate and no negative delta lands
    between the old value and the target. *)
Lemma damp_between x y lambda dt :
  0 < lambda -> 0 <= dt -> between x y (damp x y lambda dt).
Proof.
  intros Hl Hdt. rewrite damp_closed.
  assert (He : 0 < exp (- (lambda * dt)) <= 1) by (apply exp_neg_le_1; nra).
  unfold between, Rmin, Rmax. destruct (Rle_dec x y); split; nra.
Qed.

Lemma between_unit a b x :
  0 <= a <= 1 -> 0 <= b <= 1 -> between a b x -> 0 <= x <= 1.
Proof.
  unfold between, Rmin, Rmax. intros Ha Hb. destruct (Rle_dec a b); lra.
Qed.

(** X12: the code never clamps the morph progress, and needs not: a step
    with a delta that is not negative lands between the old progress and
    the target, so a progress within 0 and 1 stays there over any run of
    frames, whatever scene state each frame sees and however long a frame
    takes. *)
Theorem morphProgress_stays_in_unit (progress : R) (frames : list (TreeState * R))
  (Hp : 0 <= progress <= 1) (Hframes : Forall (fun f => 0 <= snd f) frames) :
  0 <= morph_frames progress frames <= 1 /\
  forall state delta,
    0 <= delta ->
    between progress (target state) (morphProgress_step state progress delta).
Proof.
  split.
  - revert progress Hp. induction Hframes as [| [state delta] rest Hd _ IH];
      intros progress Hp; [exact Hp |].
    change (morph_frames progress ((state, delta) :: rest))
      with (morph_frames (morphProgress_step state progress delta) rest).
    apply IH.
    apply (between_unit progress (target state)); [exact Hp | apply target_unit |].
    apply damp_between; [apply smoothTime_pos | exact Hd].
  - intros state delta Hd. apply damp_between; [apply smoothTime_pos | exact Hd].
Qed.

Lemma morphProgress_stays_in_unit_witness :
  0 <= morph_frames 0.5 [(ASSEMBLED, 100); (SCATTERED, 0); (PHOTO_ZOOM, 0.016)] <= 1.
Proof.
  assert (Hp : 0 <= 0.5 <= 1) by lra.
  assert (Hf : Forall (fun f : TreeState * R => 0 <= snd f)
                 [(ASSEMBLED, 100); (SCATTERED, 0); (PHOTO_ZOOM, 0.016)])
    by (repeat constructor; simpl; lra).
  exact (proj1 (morphProgress_stays_in_unit 0.5 _ Hp Hf)).
Defined.

(** Any run of [damp] steps toward one target in closed form. *)
Lemma damp_fold_closed y lambda dts : forall p,
  fold_left (fun p dt => damp p y lambda dt) dts p
  = y + (p - y) * exp (- (lambda * elapsed dts)).
Proof.
  induction dts as [| dt rest IH]; intros p.
  - simpl. replace (- (lambda * 0)) with 0 by ring. rewrite exp_0. ring.
  - cbn [fold_left]. rewrite IH, damp_closed. simpl elapsed.
    replace (- (lambda * (dt + elapsed rest)))
      with (- (lambda * dt) + - (lambda * elapsed rest)) by ring.
    rewrite exp_plus. ring.
Qed.

(** X13: under one scene state the progress after a run of frames is,
    in real arithmetic, the target plus the initial distance times
    [exp (- rate * elapsed)], with rate [smoothTime] for the tree and 2
    for the snow scene, [elapsed] being the sum of the frame times; the
    doubles of the code follow this value up to the rounding of each
    step. *)
Theorem progress_closed_form (state : TreeState) (p : R) (deltas : list R) :
  morphProgress_run state p deltas
  = target state + (p - target state) * exp (- (smoothTime state * elapsed deltas)) /\
  progress_run state p deltas
  = Scene.target state + (p - Scene.target state) * exp (- (2 * elapsed deltas)).
Proof. split; apply damp_fold_closed. Qed.

End MorphMore.

(** ** One frame of the tree *)

Module TreeFrameMore.

Import THREE THREE.MathUtils ArixChristmasTree Spec Notions.
Import MorphProps ForEachProps PositionProps MorphMore.
Local Open Scope R_scope.

Lemma forEach_dummy_Forall {E : Type}
  (f : E -> nat -> Object3D -> Object3D) (P : Object3D -> Prop) :
  (forall d i dummy, P (f d i dummy)) ->
  forall data i dummy, Forall P (fst (forEach_dummy f i data dummy)).
Proof.
  intros Hf. induction data as [| d rest IH]; intros i dummy.
  - constructor.
  - cbn [forEach_dummy]. specialize (IH (S i) (f d i dummy)).
    destruct (forEach_dummy f (S i) rest (f d i dummy)) as [ms dummy'].
    cbn [fst] in *. constructor; [apply Hf | exact IH].
Qed.

Lemma blink_unit time phase : 0 <= blink time phase <= 1.
Proof. unfold blink. pose proof (SIN_bound (time * 4 + phase)). lra. Qed.

Lemma update_light_scale t time d i dummy :
  uniform_scale 0.4 0.8 (update_light t time d i dummy).
Proof.
  exists (0.4 + blink time (o_phase d) * 0.4). split; [reflexivity |].
  pose proof (blink_unit time (o_phase d)). lra.
Qed.

Lemma update_ribbon_scale t time d i dummy :
  uniform_scale 0.4 0.8 (update_ribbon t time d i dummy).
Proof.
  unfold update_ribbon.
  exists ((if Rgtb t 0.1 then sin (time * 5 + INR i) * 0.2 + 0.8 else 0.5) * 0.8).
  split; [reflexivity |].
  pose proof (SIN_bound (time * 5 + INR i)).
  destruct (Rgtb t 0.1); lra.
Qed.

(** The parts of one frame, one by one. *)
Lemma useFrame_parts state data p star time delta :
  let t := morphProgress_step state p delta in
  exists d1 d2 d3 d4,
    f_ribbon (useFrame state data p star time delta)
    = fst (forEach_dummy (update_ribbon t time) 0 (ribbonData data) d1) /\
    d3 = snd (forEach_dummy (update_ornament t time) 0 (goldData data) d2) /\
    d4 = snd (forEach_dummy (update_ornament t time) 0 (redData data) d3) /\
    f_lights (useFrame state data p star time delta)
    = fst (forEach_dummy (update_light t time) 0 (lightsData data) d4) /\
    f_lightColors (useFrame state data p star time delta)
    = map (light_color time) (lightsData data).
Proof.
  intros t. unfold useFrame. fold t.
  destruct (forEach_dummy (update_needle t time) 0 (needlesData data) newObject3D)
    as [needles d1].
  destruct (forEach_dummy (update_ribbon t time) 0 (ribbonData data) d1)
    as [ribbon d2] eqn:E2.
  destruct (forEach_dummy (update_ornament t time) 0 (goldData data) d2)
    as [gold d3] eqn:E3.
  destruct (forEach_dummy (update_ornament t time) 0 (redData data) d3)
    as [red d4] eqn:E4.
  destruct (forEach_dummy (update_light t time) 0 (lightsData data) d4)
    as [lights d5] eqn:E5.
  exists d1, d2, d3, d4. cbn [f_ribbon f_lights f_lightColors].
  rewrite E2, E3, E4, E5. repeat split.
Qed.

(** X15: in every frame, whatever the progress and the time, each ribbon
    bit and each light is scaled uniformly by a factor from 0.4 to 0.8, the
    ribbon's flow moves a height by at most 0.05, and each light gets the
    hue 0.12, full saturation and a lightness from 0.5 to 1. *)
Theorem frame_scales_bounded (state : TreeState) (data : Data) (p : R)
  (star : Object3D) (time delta : R) :
  let fr := useFrame state data p star time delta in
  Forall (uniform_scale 0.4 0.8) (f_ribbon fr) /\
  Forall (uniform_scale 0.4 0.8) (f_lights fr) /\
  Forall (fun c => hue c = 0.12 /\ saturation c = 1 /\ 0.5 <= lightness c <= 1)
         (f_lightColors fr) /\
  List.length (f_lightColors fr) = List.length (lightsData data) /\
  forall i, Rabs (flowOffset time i) <= 0.05.
Proof.
  intros fr.
  destruct (useFrame_parts state data p star time delta)
    as [d1 [d2 [d3 [d4 [Hr [_ [_ [Hl Hc]]]]]]]].
  fold fr in Hr, Hl, Hc. rewrite Hr, Hl, Hc.
  split; [apply forEach_dummy_Forall; apply update_ribbon_scale |].
  split; [apply forEach_dummy_Forall; apply update_light_scale |].
  split; [| split; [apply length_map |]].
  - apply Forall_forall. intros c Hin. apply in_map_iff in Hin.
    destruct Hin as [d [<- _]]. unfold light_color. cbn.
    pose proof (blink_unit time (o_phase d)). repeat split; lra.
  - intros i. unfold flowOffset.
    pose proof (SIN_bound (time * 2 + INR i * 0.1)).
    apply Rabs_le. lra.
Qed.

Lemma update_light_rotation t time d i dummy :
  rotation (update_light t time d i dummy) = rotation dummy.
Proof. reflexivity. Qed.

(** Lights keep the rotation the dummy comes with. *)
Lemma lights_keep_rotation t time data : forall i dummy,
  Forall (fun m => rotation m = rotation dummy)
         (fst (forEach_dummy (update_light t time) i data dummy)).
Proof.
  induction data as [| d rest IH]; intros i dummy.
  - constructor.
  - cbn [forEach_dummy]. specialize (IH (S i) (update_light t time d i dummy)).
    destruct (forEach_dummy (update_light t time) (S i) rest
                (update_light t time d i dummy)) as [ms dummy'].
    cbn [fst] in *. constructor; [reflexivity |].
    now rewrite update_light_rotation in IH.
Qed.

(** After the ornaments the dummy carries the rotation of the last one. *)
Lemma ornaments_leave_rotation t time rest d : forall i dummy,
  rotation (snd (forEach_dummy (update_ornament t time) i (rest ++ [d]) dummy))
  = Euler (time * 0.5) (o_phase d) 0.
Proof.
  induction rest as [| d' rest IH]; intros i dummy.
  - reflexivity.
  - cbn [app forEach_dummy].
    specialize (IH (S i) (update_ornament t time d' i dummy)).
    destruct (forEach_dummy (update_ornament t time) (S i) (rest ++ [d])
                (update_ornament t time d' i dummy)) as [ms dummy'].
    exact IH.
Qed.

(** X16: the light callback writes no rotation, and the dummy is shared:
    when there are red ornaments, every light of the frame is stored with
    the rotation written for the last red ornament, [time * 0.5] about x
    and that ornament's phase about y. *)
Theorem lights_take_last_red_rotation (state : TreeState) (data : Data) (p : R)
  (star : Object3D) (time delta : R) (reds : list Ornament) (last_red : Ornament)
  (Hred : redData data = reds ++ [last_red]) :
  Forall (fun m => rotation m = Euler (time * 0.5) (o_phase last_red) 0)
         (f_lights (useFrame state data p star time delta)).
Proof.
  destruct (useFrame_parts state data p star time delta)
    as [d1 [d2 [d3 [d4 [_ [_ [H4 [Hl _]]]]]]]].
  rewrite Hl.
  assert (Hrot : rotation d4 = Euler (time * 0.5) (o_phase last_red) 0).
  { rewrite H4, Hred. apply ornaments_leave_rotation. }
  rewrite <- Hrot. apply lights_keep_rotation.
Qed.

Lemma lights_take_last_red_rotation_witness :
  let red := mkOrnament (mkVector3 0 0 0) (mkVector3 1 1 1) 1 7 in
  let light := mkOrnament (mkVector3 0 0 0) (mkVector3 2 2 2) 1 3 in
  Forall (fun m => rotation m = Euler (4 * 0.5) 7 0)
         (f_lights (useFrame ASSEMBLED (mkData [] [] [] [red] [light; light])
                             0 newObject3D 4 0.016)).
Proof.
  intros red light.
  exact (lights_take_last_red_rotation ASSEMBLED
           (mkData [] [] [] [red] [light; light]) 0 newObject3D 4 0.016
           [] red eq_refl).
Defined.

End TreeFrameMore.

(** ** The snow *)

Module SnowMore.

Import THREE Scene SceneLoop Spec Notions UpdateProps.
Local Open Scope R_scope.

(** For a dividend that is not negative and a positive divisor the
    remainder lies in [0, b). *)
Lemma js_rem_range a b : 0 <= a -> 0 < b -> 0 <= js_rem a b < b.
Proof.
  intros Ha Hb. unfold js_rem, trunc.
  assert (Hq : 0 <= a / b) by (apply Rmult_le_pos; [exact Ha | left; now apply Rinv_0_lt_compat]).
  destruct (Rle_dec 0 (a / b)) as [_ | Hn]; [| contradiction].
  pose proof (Zfloor_bound (a / b)) as [Hlo Hhi].
  assert (Hab : b * (a / b) = a) by (field; lra).
  split; nra.
Qed.

(** X17: falling snow stays in its column.  While the scene's progress
    is below 0.5, a particle with an initial height in [-15, 15), a speed
    and an offset that are not negative is placed, at any time from 0 on,
    at a height in [-15, 15) again and within 0.5 of its initial x and z;
    it is never bigger than 1.5 times its own scale, and the update draws
    no random value. *)
Theorem falling_snow_in_range (rng : nat -> R) (t time : R) (p : Particle)
  (dummy : Object3D) (drawn : nat)
  (Ht : 0 <= t < 0.5) (Htime : 0 <= time)
  (Hv : 0 <= velocity p) (Ho : 0 <= offset p)
  (Hy : -15 <= vy (initialPos p) < 15) (Hs : 0 <= p_scale p) :
  let o := fst (update_particle rng t time p (dummy, drawn)) in
  -15 <= vy (position o) < 15 /\
  Rabs (vx (position o) - vx (initialPos p)) <= 0.5 /\
  Rabs (vz (position o) - vz (initialPos p)) <= 0.5 /\
  (exists s, scale o = mkVector3 s s s /\ p_scale p <= s <= 1.5 * p_scale p) /\
  snd (update_particle rng t time p (dummy, drawn)) = drawn.
Proof.
  intros o. unfold o.
  rewrite (update_particle_falling rng t time p dummy drawn (proj2 Ht)).
  cbn [fst snd position scale vx vy vz].
  assert (Ha : 0 <= time * velocity p * 20 + offset p) by nra.
  pose proof (js_rem_range _ 30 Ha ltac:(lra)) as Hr.
  set (r := js_rem (time * velocity p * 20 + offset p) 30) in *.
  pose proof (SIN_bound (time + offset p)).
  pose proof (COS_bound (time + offset p)).
  split; [| split; [| split; [| split]]].
  - cbv zeta. unfold Rltb.
    destruct (Rlt_dec (vy (initialPos p) - r) (-15)); lra.
  - apply Rabs_le. lra.
  - apply Rabs_le. lra.
  - exists (p_scale p * (1 + t)). split; [reflexivity | nra].
  - reflexivity.
Qed.

Lemma falling_snow_in_range_witness :
  -15 <= vy (position (fst (update_particle Examples.rng_zero 0 3600
                              Examples.flake (newObject3D, 0%nat)))) < 15.
Proof.
  refine (proj1 (falling_snow_in_range Examples.rng_zero 0 3600 Examples.flake
                   newObject3D 0%nat _ _ _ _ _ _));
    unfold Examples.flake; simpl; lra.
Defined.

(** X18: exploding snow.  From progress 0.5 on, a particle is pushed
    away from the vertical axis, its x and z multiplied by [1 + 1.5 t];
    with a random value in [0, 1) its height is within [7.5 t] of its
    initial height; and each update draws exactly one random value. *)
Theorem exploding_snow_bounds (rng : nat -> R) (t time : R) (p : Particle)
  (dummy : Object3D) (drawn : nat)
  (Ht : 0.5 <= t) (Hrng : unit_rng rng) :
  let o := fst (update_particle rng t time p (dummy, drawn)) in
  vx (position o) = vx (initialPos p) * (1 + 1.5 * t) /\
  vz (position o) = vz (initialPos p) * (1 + 1.5 * t) /\
  axis2 (position o) = (1 + 1.5 * t) * (1 + 1.5 * t) * axis2 (initialPos p) /\
  Rabs (vy (position o) - vy (initialPos p)) <= 7.5 * t /\
  snd (update_particle rng t time p (dummy, drawn)) = S drawn.
Proof.
  intros o. unfold o.
  rewrite (update_particle_explosion rng t time p dummy drawn Ht).
  cbn [fst snd position vx vy vz]. unfold axis2. cbn [vx vz].
  pose proof (Hrng drawn) as Hr.
  split; [lra |]. split; [lra |].
  split; [replace (1 + 1.5 * t) with (1 + 3 / 2 * t) by lra; field |].
  split; [apply Rabs_le; split; nra | reflexivity].
Qed.

Lemma exploding_snow_bounds_witness :
  Rabs (vy (position (fst (update_particle Examples.rng_zero 1 0 Examples.flake
                             (newObject3D, 0%nat))))
        - vy (initialPos Examples.flake)) <= 7.5 * 1.
Proof.
  assert (Ht : 0.5 <= 1) by lra.
  assert (Hr : unit_rng Examples.rng_zero)
    by (intros k; unfold Examples.rng_zero; lra).
  exact (proj1 (proj2 (proj2 (proj2
           (exploding_snow_bounds Examples.rng_zero 1 0 Examples.flake
              newObject3D 0%nat Ht Hr))))).
Defined.

(** X19: one pass over the particles stores one matrix per particle, each
    spun by the elapsed time about all three axes and scaled by the
    particle's scale times [1 + t]; it draws no random value below progress
    0.5 and one per particle from 0.5 on. *)
Theorem update_particles_counts (rng : nat -> R) (t time : R)
  (ps : list Particle) (dummy : Object3D) (drawn : nat) :
  let out := update_particles rng t time ps (dummy, drawn) in
  Forall2 (fun p m =>
             rotation m = Euler time time time /\
             scale m = mkVector3 (p_scale p * (1 + t)) (p_scale p * (1 + t))
                                 (p_scale p * (1 + t)))
          ps (fst out) /\
  snd (snd out)
  = (drawn + if Rltb t 0.5 then 0 else List.length ps)%nat.
Proof.
  revert dummy drawn. induction ps as [| p rest IH]; intros dummy drawn out.
  - unfold out. cbn. split; [constructor |]. destruct (Rltb t 0.5); lia.
  - unfold out. cbn [update_particles].
    assert (Hstep : rotation (fst (update_particle rng t time p (dummy, drawn)))
                    = Euler time time time /\
                    scale (fst (update_particle rng t time p (dummy, drawn)))
                    = mkVector3 (p_scale p * (1 + t)) (p_scale p * (1 + t))
                                (p_scale p * (1 + t)) /\
                    snd (update_particle rng t time p (dummy, drawn))
                    = (drawn + if Rltb t 0.5 then 0 else 1)%nat).
    { destruct (Rlt_dec t 0.5) as [H | H].
      - rewrite (update_particle_falling _ _ _ _ _ _ H), (Rltb_true _ _ H).
        cbn. repeat split. lia.
      - assert (H' : 0.5 <= t) by lra.
        rewrite (update_particle_explosion _ _ _ _ _ _ H'), (Rltb_false _ _ H').
        cbn. repeat split. lia. }
    destruct (update_particle rng t time p (dummy, drawn)) as [d1 k1].
    cbn [fst snd] in Hstep. destruct Hstep as [Hr [Hs Hk]].
    specialize (IH d1 k1). cbv zeta in IH.
    destruct (update_particles rng t time rest (d1, k1)) as [ms st].
    cbn [fst snd] in *. destruct IH as [IH1 IH2].
    split; [constructor; [split; assumption | exact IH1] |].
    rewrite IH2, Hk. cbn [List.length]. destruct (Rltb t 0.5); lia.
Qed.

End SnowMore.

(** ** Data built once *)

Module GenerateProps.

Import THREE Scene TreeData Notions.
Local Open Scope R_scope.

Lemma generate_length {E : Type} (item : nat -> nat -> E * nat) n :
  forall i drawn, List.length (fst (generate item n i drawn)) = n.
Proof.
  induction n as [| n IH]; intros i drawn; [reflexivity |].
  cbn [generate]. destruct (item i drawn) as [e d1].
  specialize (IH (S i) d1). destruct (generate item n (S i) d1) as [rest d2].
  cbn [fst List.length] in *. now rewrite IH.
Qed.

Lemma generate_draws {E : Type} (item : nat -> nat -> E * nat) k n :
  (forall i drawn, snd (item i drawn) = (drawn + k)%nat) ->
  forall i drawn, snd (generate item n i drawn) = (drawn + n * k)%nat.
Proof.
  intros Hk. induction n as [| n IH]; intros i drawn; [cbn; lia |].
  cbn [generate]. specialize (Hk i drawn).
  destruct (item i drawn) as [e d1]. cbn [snd] in Hk.
  specialize (IH (S i) d1). destruct (generate item n (S i) d1) as [rest d2].
  cbn [snd] in *. rewrite IH, Hk. lia.
Qed.

(** What holds of every item with an index in range holds of every
    element of the data. *)
Lemma generate_Forall {E : Type} (item : nat -> nat -> E * nat)
  (P : E -> Prop) n :
  forall i0 drawn,
    (forall i d, (i0 <= i < i0 + n)%nat -> P (fst (item i d))) ->
    Forall P (fst (generate item n i0 drawn)).
Proof.
  induction n as [| n IH]; intros i0 drawn HP; [constructor |].
  cbn [generate].
  pose proof (HP i0 drawn ltac:(lia)) as H0.
  destruct (item i0 drawn) as [e d1]. cbn [fst] in H0.
  specialize (IH (S i0) d1 ltac:(intros i d Hi; apply HP; lia)).
  destruct (generate item n (S i0) d1) as [rest d2].
  cbn [fst] in *. constructor; assumption.
Qed.

Lemma sin2_cos2' x : sin x * sin x + cos x * cos x = 1.
Proof. exact (sin2_cos2 x). Qed.

(** A point at distance [r] from the vertical axis. *)
Lemma axis2_polar r a y :
  axis2 (mkVector3 (cos a * r) y (sin a * r)) = r * r.
Proof.
  unfold axis2. cbn [vx vz]. pose proof (sin2_cos2' a). nra.
Qed.

(** A point in spherical coordinates at distance [r] from the origin. *)
Lemma norm2_spherical r phi theta :
  norm2 (mkVector3 (r * sin phi * cos theta) (r * sin phi * sin theta)
                   (r * cos phi)) = r * r.
Proof.
  unfold norm2. cbn [vx vy vz].
  pose proof (sin2_cos2' phi) as Hp. pose proof (sin2_cos2' theta) as Ht.
  replace (r * sin phi * cos theta * (r * sin phi * cos theta) +
           r * sin phi * sin theta * (r * sin phi * sin theta) +
           r * cos phi * (r * cos phi))
    with (r * r * (sin phi * sin phi * (sin theta * sin theta + cos theta * cos theta)
                   + cos phi * cos phi)) by ring.
  rewrite Ht, Rmult_1_r, Hp. ring.
Qed.

(** The cube root of a number in [0, 1). *)
Lemma cbrt_unit w : 0 <= w < 1 -> 0 <= cbrt w < 1 /\ cbrt w * cbrt w * cbrt w = w.
Proof.
  intros [H0 H1]. unfold cbrt.
  destruct (Rlt_dec 0 w) as [Hp | Hn].
  - assert (Hln : ln w < 0) by (rewrite <- ln_1; apply ln_increasing; lra).
    pose proof (exp_pos (ln w / 3)) as He.
    assert (He1 : exp (ln w / 3) < 1)
      by (rewrite <- exp_0; apply exp_increasing; lra).
    split; [lra |].
    rewrite <- !exp_plus.
    replace (ln w / 3 + ln w / 3 + ln w / 3) with (ln w) by field.
    now apply exp_ln.
  - assert (w = 0) by lra. subst w.
    destruct (Rlt_dec 0 0); [lra |]. split; [lra | ring].
Qed.

(** X20: a scatter point lies in the ball of the given radius: its
    distance from the origin is the cube root of the third random value
    times the radius; the function draws three random values. *)
Theorem getRandomScatterPoint_in_ball (rng : nat -> R) (radius : R) (drawn : nat)
  (Hrng : unit_rng rng) :
  norm2 (fst (getRandomScatterPoint rng radius drawn))
  = (cbrt (rng (drawn + 2)%nat) * radius) * (cbrt (rng (drawn + 2)%nat) * radius) /\
  norm2 (fst (getRandomScatterPoint rng radius drawn)) <= radius * radius /\
  cbrt (rng (drawn + 2)%nat) * cbrt (rng (drawn + 2)%nat) * cbrt (rng (drawn + 2)%nat)
  = rng (drawn + 2)%nat /\
  snd (getRandomScatterPoint rng radius drawn) = (drawn + 3)%nat.
Proof.
  unfold getRandomScatterPoint, Math_random. cbn [fst snd].
  replace (S (S drawn)) with (drawn + 2)%nat by lia.
  rewrite norm2_spherical.
  destruct (cbrt_unit _ (Hrng (drawn + 2)%nat)) as [[Hc0 Hc1] Hc3].
  split; [reflexivity |]. split; [| split; [exact Hc3 | lia]].
  assert (cbrt (rng (drawn + 2)%nat) * cbrt (rng (drawn + 2)%nat) <= 1) by nra.
  pose proof (Rle_0_sqr radius) as Hr. unfold Rsqr in Hr. nra.
Qed.

Lemma getRandomScatterPoint_in_ball_witness :
  norm2 (fst (getRandomScatterPoint Examples.rng_step 35 0)) <= 35 * 35.
Proof.
  assert (Hr : unit_rng Examples.rng_step).
  { intros k. unfold Examples.rng_step. destruct k; lra. }
  exact (proj1 (proj2 (getRandomScatterPoint_in_ball Examples.rng_step 35 0 Hr))).
Defined.

End GenerateProps.

(** ** The tree's data *)

Module TreeDataProps.

Import THREE ArixChristmasTree Scene TreeData Notions Shapes GenerateProps.
Local Open Scope R_scope.

Lemma scatter_in_ball rng radius drawn :
  unit_rng rng ->
  norm2 (fst (getRandomScatterPoint rng radius drawn)) <= radius * radius.
Proof.
  intros H. exact (proj1 (proj2 (getRandomScatterPoint_in_ball rng radius drawn H))).
Qed.

Lemma scatter_draws rng radius drawn :
  snd (getRandomScatterPoint rng radius drawn) = (drawn + 3)%nat.
Proof. unfold getRandomScatterPoint, Math_random. cbn. lia. Qed.

Lemma NEEDLE_COUNT_ge_2 : (2 <= NEEDLE_COUNT)%nat.
Proof. unfold NEEDLE_COUNT. lia. Qed.

Lemma needle_y_range i :
  (i < NEEDLE_COUNT)%nat -> -5 <= needle_y i <= 5.
Proof.
  intros Hi. pose proof NEEDLE_COUNT_ge_2 as H2. unfold needle_y.
  assert (Hn : 0 < INR (NEEDLE_COUNT - 1)) by (apply lt_0_INR; lia).
  assert (H0 : 0 <= INR i) by apply pos_INR.
  assert (H1 : INR i <= INR (NEEDLE_COUNT - 1)) by (apply le_INR; lia).
  assert (Hq : 0 <= INR i / INR (NEEDLE_COUNT - 1) <= 1).
  { split.
    - apply Rmult_le_pos; [exact H0 | left; now apply Rinv_0_lt_compat].
    - apply (Rmult_le_reg_r (INR (NEEDLE_COUNT - 1))); [exact Hn |].
      unfold Rdiv. rewrite Rmult_assoc, Rinv_l by lra. lra. }
  lra.
Qed.

Lemma needle_item_ok rng i drawn :
  unit_rng rng -> (i < NEEDLE_COUNT)%nat -> needle_ok (fst (needle rng i drawn)).
Proof.
  intros Hrng Hi. unfold needle.
  pose proof (scatter_in_ball rng 35 drawn Hrng) as Hs.
  destruct (getRandomScatterPoint rng 35 drawn) as [sp d1]. cbn [fst] in Hs.
  unfold Math_random. cbn [fst].
  pose proof (Hrng d1) as Ha. pose proof (Hrng (S d1)) as Hb.
  pose proof (Hrng (S (S d1))) as Hc.
  unfold needle_ok. cbn [n_treePosition n_rotation n_scale n_scatterPosition vx vy vz].
  split; [now apply needle_y_range |].
  split; [| repeat split; lra].
  exists ((5 - needle_y i) * 0.6 + (rng d1 - 0.5) * 1.5).
  split; [apply axis2_polar |].
  apply Rabs_le. lra.
Qed.

Lemma needle_draws rng i drawn : snd (needle rng i drawn) = (drawn + 6)%nat.
Proof.
  unfold needle. pose proof (scatter_draws rng 35 drawn) as H.
  destruct (getRandomScatterPoint rng 35 drawn) as [sp d1]. cbn in *. lia.
Qed.

(** X21: the needles.  There are 6000 of them; with random values in
    [0, 1) each has a tree position at a height from -5 to 5 and at a
    distance from the axis within 0.75 of the cone radius [(5 - y) * 0.6],
    a tilt from -0.2 to 0.3 about x and of 0.5 about z, a scale from 0.5 to
    1 and a scatter position in the ball of radius 35; the first needle is
    at the top, the last at the bottom; six random values go into each. *)
Theorem needlesData_shape (rng : nat -> R) (drawn : nat) (Hrng : unit_rng rng) :
  List.length (fst (needlesData rng drawn)) = NEEDLE_COUNT /\
  Z.of_nat NEEDLE_COUNT = 6000%Z /\
  Forall needle_ok (fst (needlesData rng drawn)) /\
  needle_y 0 = 5 /\ needle_y (NEEDLE_COUNT - 1) = -5 /\
  snd (needlesData rng drawn) = (drawn + NEEDLE_COUNT * 6)%nat.
Proof.
  split; [| split; [| split; [| split; [| split]]]].
  - unfold needlesData. apply generate_length.
  - unfold NEEDLE_COUNT. lia.
  - unfold needlesData. apply generate_Forall.
    intros i d Hi. apply needle_item_ok; [exact Hrng | lia].
  - unfold needle_y. simpl INR. lra.
  - unfold needle_y. pose proof NEEDLE_COUNT_ge_2.
    assert (Hn : 0 < INR (NEEDLE_COUNT - 1)) by (apply lt_0_INR; lia).
    unfold Rdiv. rewrite Rinv_r by lra. lra.
  - unfold needlesData. apply generate_draws. apply needle_draws.
Qed.

Lemma needlesData_shape_witness :
  List.length (fst (needlesData Examples.rng_zero 0)) = NEEDLE_COUNT.
Proof.
  assert (Hr : unit_rng Examples.rng_zero)
    by (intros k; unfold Examples.rng_zero; lra).
  exact (proj1 (needlesData_shape Examples.rng_zero 0 Hr)).
Defined.

Lemma ribbon_t_range i : (i < RIBBON_COUNT)%nat -> 0 <= ribbon_t i < 1.
Proof.
  intros Hi. unfold ribbon_t.
  assert (Hn : 0 < INR RIBBON_COUNT) by (apply lt_0_INR; lia).
  assert (H0 : 0 <= INR i) by apply pos_INR.
  assert (H1 : INR i < INR RIBBON_COUNT) by (apply lt_INR; exact Hi).
  split.
  - apply Rmult_le_pos; [exact H0 | left; now apply Rinv_0_lt_compat].
  - apply (Rmult_lt_reg_r (INR RIBBON_COUNT)); [exact Hn |].
    unfold Rdiv. rewrite Rmult_assoc, Rinv_l by lra. lra.
Qed.

Lemma ribbon_t_increasing i j :
  (i < j)%nat -> ribbon_t i < ribbon_t j.
Proof.
  intros Hij. unfold ribbon_t.
  assert (Hn : 0 < INR RIBBON_COUNT) by (apply lt_0_INR; unfold RIBBON_COUNT; lia).
  apply Rmult_lt_compat_r; [now apply Rinv_0_lt_compat | now apply lt_INR].
Qed.

Lemma ribbon_item_ok rng i drawn :
  unit_rng rng -> (i < RIBBON_COUNT)%nat -> ribbon_ok (fst (ribbonBit rng i drawn)).
Proof.
  intros Hrng Hi. unfold ribbonBit.
  pose proof (scatter_in_ball rng 40 drawn Hrng) as Hs.
  destruct (getRandomScatterPoint rng 40 drawn) as [sp d1]. cbn [fst] in Hs.
  unfold Math_random. cbn [fst]. pose proof (Hrng d1) as Hc.
  pose proof (ribbon_t_range i Hi) as Ht.
  unfold ribbon_ok. cbn [r_treePosition r_scale r_scatterPosition vy].
  split; [unfold ribbon_y; lra |].
  split; [rewrite axis2_polar; reflexivity |].
  split; [lra | exact Hs].
Qed.

Lemma ribbon_draws rng i drawn : snd (ribbonBit rng i drawn) = (drawn + 4)%nat.
Proof.
  unfold ribbonBit. pose proof (scatter_draws rng 40 drawn) as H.
  destruct (getRandomScatterPoint rng 40 drawn) as [sp d1]. cbn in *. lia.
Qed.

(** X22: the ribbon.  There are 1500 bits; each has a tree position at a
    height above -4.5 and up to 4.5, at the distance
    [(5 - y) * 0.75 + 0.6] from the axis, a scale from 0.5 to 1 and a
    scatter position in the ball of radius 40; the heights go strictly
    down along the ribbon, starting at 4.5; four random values go into
    each bit. *)
Theorem ribbonData_shape (rng : nat -> R) (drawn : nat) (Hrng : unit_rng rng) :
  List.length (fst (ribbonData rng drawn)) = 1500%nat /\
  Forall ribbon_ok (fst (ribbonData rng drawn)) /\
  ribbon_y 0 = 4.5 /\
  (forall i j, (i < j)%nat -> ribbon_y j < ribbon_y i) /\
  snd (ribbonData rng drawn) = (drawn + 1500 * 4)%nat.
Proof.
  assert (HN : RIBBON_COUNT = 1500%nat) by (unfold RIBBON_COUNT; lia).
  split; [| split; [| split; [| split]]].
  - unfold ribbonData. rewrite generate_length. exact HN.
  - unfold ribbonData. apply generate_Forall.
    intros i d Hi. apply ribbon_item_ok; [exact Hrng | lia].
  - unfold ribbon_y, ribbon_t. simpl INR. lra.
  - intros i j Hij. pose proof (ribbon_t_increasing i j Hij). unfold ribbon_y. lra.
  - unfold ribbonData. rewrite (generate_draws _ 4) by apply ribbon_draws.
    rewrite HN. reflexivity.
Qed.

Lemma ribbonData_shape_witness :
  List.length (fst (ribbonData Examples.rng_zero 0)) = 1500%nat.
Proof.
  assert (Hr : unit_rng Examples.rng_zero)
    by (intros k; unfold Examples.rng_zero; lra).
  exact (proj1 (ribbonData_shape Examples.rng_zero 0 Hr)).
Defined.

Lemma ornament_item_ok rng off i drawn :
  unit_rng rng -> ornament_ok off (fst (ornament rng off i drawn)).
Proof.
  intros Hrng. unfold ornament.
  pose proof (scatter_in_ball rng 30 drawn Hrng) as Hs.
  destruct (getRandomScatterPoint rng 30 drawn) as [sp d1]. cbn [fst] in Hs.
  unfold Math_random. cbn [fst].
  pose proof (Hrng d1). pose proof (Hrng (S d1)). pose proof (Hrng (S (S d1))).
  pose proof (Hrng (S (S (S d1)))). pose proof (Hrng (S (S (S (S d1))))).
  unfold ornament_ok. cbn [o_treePosition o_scale o_phase o_scatterPosition vy].
  split; [lra |]. split; [| repeat split; lra].
  exists ((5 - (-4.5 + rng d1 * 9)) * 0.6 + 0.2 + rng (S d1) * 0.5 + off).
  split; [apply axis2_polar | lra].
Qed.

Lemma ornament_draws rng off i drawn :
  snd (ornament rng off i drawn) = (drawn + 8)%nat.
Proof.
  unfold ornament. pose proof (scatter_draws rng 30 drawn) as H.
  destruct (getRandomScatterPoint rng 30 drawn) as [sp d1]. cbn in *. lia.
Qed.

(** X23: the ornaments and lights.  [generateOrnamentData] builds [count]
    entries from eight random values each; with random values in [0, 1)
    each entry lies at a height from -4.5 to 4.5, at a distance from the
    axis from 0.2 to 0.7 beyond the cone radius [(5 - y) * 0.6] plus the
    radius offset, with a scale from 0.5 to 1, a phase from 0 to 10 and a
    scatter position in the ball of radius 30.  The 150 gold and 100 red
    ornaments use the offset 0, the 200 lights -0.2, so a light is never
    closer to the axis than the cone radius. *)
Theorem ornamentData_shape (rng : nat -> R) (count : nat) (radiusOffset : R)
  (drawn : nat) (Hrng : unit_rng rng) :
  List.length (fst (generateOrnamentData rng count radiusOffset drawn)) = count /\
  Forall (ornament_ok radiusOffset)
         (fst (generateOrnamentData rng count radiusOffset drawn)) /\
  snd (generateOrnamentData rng count radiusOffset drawn) = (drawn + count * 8)%nat /\
  List.length (fst (goldData rng drawn)) = 150%nat /\
  List.length (fst (redData rng drawn)) = 100%nat /\
  List.length (fst (lightsData rng drawn)) = 200%nat /\
  Forall (fun d => exists r, axis2 (o_treePosition d) = r * r /\
                             (5 - vy (o_treePosition d)) * 0.6 <= r)
         (fst (lightsData rng drawn)).
Proof.
  assert (Hall : forall c off d,
             Forall (ornament_ok off) (fst (generateOrnamentData rng c off d))).
  { intros c off d. unfold generateOrnamentData. apply generate_Forall.
    intros i d' _. now apply ornament_item_ok. }
  split; [apply generate_length |].
  split; [apply Hall |].
  split; [unfold generateOrnamentData; apply generate_draws; intros;
          apply ornament_draws |].
  split; [apply generate_length |].
  split; [apply generate_length |].
  split; [apply generate_length |].
  unfold lightsData. eapply Forall_impl; [| apply Hall].
  intros d [_ [[r [Hr Hb]] _]]. exists r. split; [exact Hr | lra].
Qed.

Lemma ornamentData_shape_witness :
  List.length (fst (lightsData Examples.rng_zero 0)) = 200%nat.
Proof.
  assert (Hr : unit_rng Examples.rng_zero)
    by (intros k; unfold Examples.rng_zero; lra).
  exact (proj1 (proj2 (proj2 (proj2 (proj2 (proj2
           (ornamentData_shape Examples.rng_zero 0 0 0 Hr))))))).
Defined.

End TreeDataProps.

(** ** The snow's data, the photos and the rotation *)

Module SceneMore.

Import THREE THREE.MathUtils Scene SceneLoop TreeData Spec Notions Shapes.
Import MorphProps GenerateProps PhotoProps.
Local Open Scope R_scope.

(** [Math.floor(f * 3)] picks one of the three colors. *)
Lemma color_at_floor f :
  0 <= f < 1 -> In (color_at (Zfloor (f * INR (List.length colors)))) colors.
Proof.
  intros Hf. simpl INR.
  replace ((1 + 1 + 1)) with 3 by lra.
  destruct (Rlt_dec (f * 3) 1) as [H1 | H1].
  - rewrite (Zfloor_eq 0) by (simpl; lra). simpl. tauto.
  - destruct (Rlt_dec (f * 3) 2) as [H2 | H2].
    + rewrite (Zfloor_eq 1) by (simpl; lra). simpl. tauto.
    + rewrite (Zfloor_eq 2) by (simpl; lra). simpl. tauto.
Qed.

Lemma particle_item_ok rng i drawn :
  unit_rng rng -> particle_ok (fst (particle rng i drawn)).
Proof.
  intros Hrng. unfold particle, Math_random. cbn [fst].
  pose proof (Hrng drawn) as Ha.
  pose proof (Hrng (S (S drawn))) as Hc.
  pose proof (Hrng (S (S (S drawn)))) as Hd.
  pose proof (Hrng (S (S (S (S drawn))))) as He.
  pose proof (Hrng (S (S (S (S (S drawn)))))) as Hf.
  pose proof (Hrng (S (S (S (S (S (S drawn))))))) as Hg.
  unfold particle_ok. cbn [initialPos velocity p_scale p_color offset vy].
  split; [lra |]. split.
  { unfold axis2. cbn [vx vz].
    pose proof (sin2_cos2' (rng (S drawn) * PI * 2)) as Hsc.
    split; nra. }
  split; [lra |]. split; [lra |].
  split; [now apply color_at_floor | lra].
Qed.

Lemma particle_draws rng i drawn : snd (particle rng i drawn) = (drawn + 7)%nat.
Proof. unfold particle, Math_random. cbn. lia. Qed.

(** X24: the snow's data.  There are 2000 particles, seven random
    values each; with random values in [0, 1) each particle starts at a
    height in [-15, 15) and at a distance from 10 to 30 from the axis, with
    a speed from 0.02 to 0.07, a scale from 0.05 to 0.15, an offset from 0
    to 100, and one of the three colors: the color index never leaves the
    array. *)
Theorem particles_shape (rng : nat -> R) (drawn : nat) (Hrng : unit_rng rng) :
  List.length (fst (particles rng drawn)) = 2000%nat /\
  Forall particle_ok (fst (particles rng drawn)) /\
  snd (particles rng drawn) = (drawn + 2000 * 7)%nat.
Proof.
  unfold particles. split; [| split].
  - apply generate_length.
  - apply generate_Forall. intros i d _. now apply particle_item_ok.
  - apply generate_draws. intros. apply particle_draws.
Qed.

Lemma particles_shape_witness :
  Forall particle_ok (fst (particles Examples.rng_zero 0)).
Proof.
  assert (Hr : unit_rng Examples.rng_zero)
    by (intros k; unfold Examples.rng_zero; lra).
  exact (proj1 (proj2 (particles_shape Examples.rng_zero 0 Hr))).
Defined.

Lemma photo_h_increasing i j n :
  (i < j)%nat -> (0 < n)%nat -> photo_h i n < photo_h j n.
Proof.
  intros Hij Hn. unfold photo_h. rewrite !photo_p_pos by exact Hn.
  assert (Rn : 0 < INR n) by (apply lt_0_INR; exact Hn).
  assert (Rij : INR i < INR j) by (apply lt_INR; exact Hij).
  assert (Hinv : 0 < / INR n) by (now apply Rinv_0_lt_compat).
  unfold Rdiv. nra.
Qed.

Lemma photo_h_range i n : (i < n)%nat -> -3 <= photo_h i n < 3.
Proof.
  intros Hi. unfold photo_h. rewrite photo_p_pos by lia.
  assert (Rn : 0 < INR n) by (apply lt_0_INR; lia).
  assert (R0 : 0 <= INR i) by apply pos_INR.
  assert (Ri : INR i < INR n) by (apply lt_INR; exact Hi).
  assert (Hq : 0 <= INR i / INR n < 1).
  { split.
    - apply Rmult_le_pos; [exact R0 | left; now apply Rinv_0_lt_compat].
    - apply (Rmult_lt_reg_r (INR n)); [exact Rn |].
      unfold Rdiv. rewrite Rmult_assoc, Rinv_l by lra. lra. }
  lra.
Qed.

Lemma layout_entry rng photos drawn i l :
  nth_error (fst (photoLayout rng photos drawn)) i = Some l ->
  (i < List.length photos)%nat /\
  treePos l = photo_treePos i (List.length photos) /\
  scatterPos l = photo_scatterPos (rng (drawn + 2 * i)%nat)
                                  (rng (drawn + 2 * i + 1)%nat).
Proof.
  intros Hl.
  assert (Hi : (i < List.length photos)%nat).
  { rewrite <- (photoLayout_from_length rng (List.length photos) photos 0 drawn).
    apply nth_error_Some. unfold photoLayout in Hl. congruence. }
  destruct (nth_error photos i) as [photo |] eqn:Hp;
    [| apply nth_error_None in Hp; lia].
  unfold photoLayout in Hl.
  rewrite (photoLayout_from_nth rng _ photos 0 drawn i photo Hp) in Hl.
  injection Hl as <-. cbn [treePos scatterPos]. repeat split. exact Hi.
Qed.

(** X25: the photo layout.  It has one entry per photo, in the order of
    the photos, and takes two random values per photo; with no photo it is
    empty, and the guard on the length keeps the division defined.  The
    tree positions climb strictly with the index, from height -3 and below
    3, so no two photos share one; each lies at the distance
    [3.2 - 0.4 * height] from the axis, between 2 and 4.4. *)
Theorem photoLayout_shape (rng : nat -> R) (photos : list App.PhotoData)
  (drawn : nat) :
  let L := fst (photoLayout rng photos drawn) in
  map l_id L = map App.id photos /\
  snd (photoLayout rng photos drawn) = (drawn + 2 * List.length photos)%nat /\
  photoLayout rng [] drawn = ([], drawn) /\
  (forall i l, nth_error L i = Some l ->
     -3 <= vy (treePos l) < 3 /\
     axis2 (treePos l)
     = (3.2 - 0.4 * vy (treePos l)) * (3.2 - 0.4 * vy (treePos l)) /\
     2 < 3.2 - 0.4 * vy (treePos l) <= 4.4) /\
  (forall i j li lj,
     (i < j)%nat -> nth_error L i = Some li -> nth_error L j = Some lj ->
     vy (treePos li) < vy (treePos lj) /\ treePos li <> treePos lj).
Proof.
  intros L. unfold L.
  destruct (photoLayout_ids rng (List.length photos) photos 0 drawn) as [Hid Hdr].
  split; [exact Hid |]. split; [exact Hdr |]. split; [reflexivity |].
  split.
  - intros i l Hl. destruct (layout_entry rng photos drawn i l Hl) as [Hi [Ht _]].
    rewrite Ht. unfold photo_treePos. cbn [vy].
    pose proof (photo_h_range i _ Hi) as Hh.
    assert (Hr : photo_r i (List.length photos)
                 = 3.2 - 0.4 * photo_h i (List.length photos))
      by (unfold photo_r; lra).
    split; [exact Hh |]. split; [| lra].
    now rewrite axis2_polar, Hr.
  - intros i j li lj Hij Hli Hlj.
    destruct (layout_entry rng photos drawn i li Hli) as [Hi [Hti _]].
    destruct (layout_entry rng photos drawn j lj Hlj) as [Hj [Htj _]].
    assert (Hlt : vy (treePos li) < vy (treePos lj)).
    { rewrite Hti, Htj. cbn [photo_treePos vy]. apply photo_h_increasing; lia. }
    split; [exact Hlt |]. intros Heq. rewrite Heq in Hlt. lra.
Qed.

(** X26: whatever the two random values, a photo's scatter position lies
    on the sphere of radius 12 about the origin. *)
Theorem photo_scatter_on_sphere (rng : nat -> R) (photos : list App.PhotoData)
  (drawn : nat) :
  (forall u v, norm2 (photo_scatterPos u v) = 12 * 12) /\
  Forall (fun l => norm2 (scatterPos l) = 12 * 12)
         (fst (photoLayout rng photos drawn)).
Proof.
  assert (H : forall u v, norm2 (photo_scatterPos u v) = 12 * 12)
    by (intros u v; unfold photo_scatterPos; apply norm2_spherical).
  split; [exact H |].
  apply Forall_forall. intros l Hin.
  apply In_nth_error in Hin. destruct Hin as [i Hi].
  destruct (layout_entry rng photos drawn i l Hi) as [_ [_ Hs]].
  rewrite Hs. apply H.
Qed.

End SceneMore.

(** ** Photos and rotation over frames *)

Module FollowProps.

Import THREE THREE.MathUtils Scene SceneLoop Spec Notions Shapes MorphProps.
Local Open Scope R_scope.

Lemma follow_S treeState t layout n child :
  follow treeState t layout (S n) child
  = update_photo treeState t (Some layout) (follow treeState t layout n child).
Proof. reflexivity. Qed.

(** One update moves each coordinate a tenth of the way to the target. *)
Lemma update_photo_step treeState t layout child :
  let cur := photo_currentPos layout t in
  let tgt := if TreeState_eqb treeState SCATTERED then 1.5 else 0.8 in
  let c := update_photo treeState t (Some layout) child in
  vx (position c) - vx cur = 0.9 * (vx (position child) - vx cur) /\
  vy (position c) - vy cur = 0.9 * (vy (position child) - vy cur) /\
  vz (position c) - vz cur = 0.9 * (vz (position child) - vz cur) /\
  vx (scale c) - tgt = 0.9 * (vx (scale child) - tgt) /\
  rotation c = LookingAt (position c) (mkVector3 0 0 0).
Proof.
  cbv zeta. unfold update_photo, lookAt, scale_setScalar, Vector3_lerp, lerp.
  cbn [position scale rotation vx vy vz].
  repeat split; lra.
Qed.

Lemma follow_closed treeState t layout child n :
  let cur := photo_currentPos layout t in
  let tgt := if TreeState_eqb treeState SCATTERED then 1.5 else 0.8 in
  let c := follow treeState t layout n child in
  vx (position c) - vx cur = 0.9 ^ n * (vx (position child) - vx cur) /\
  vy (position c) - vy cur = 0.9 ^ n * (vy (position child) - vy cur) /\
  vz (position c) - vz cur = 0.9 ^ n * (vz (position child) - vz cur) /\
  vx (scale c) - tgt = 0.9 ^ n * (vx (scale child) - tgt).
Proof.
  cbv zeta. induction n as [| n IH].
  - change (follow treeState t layout 0 child) with child. cbn [pow].
    repeat split; lra.
  - rewrite follow_S.
    destruct (update_photo_step treeState t layout
                (follow treeState t layout n child)) as [Hx [Hy [Hz [Hs _]]]].
    destruct IH as [Ix [Iy [Iz Is]]].
    rewrite Hx, Hy, Hz, Hs, Ix, Iy, Iz, Is. cbn [pow].
    repeat split; ring.
Qed.

Lemma pow09_small d eps :
  0 < eps -> exists N, forall n, (N <= n)%nat -> Rabs (0.9 ^ n * d) < eps.
Proof.
  intros Heps.
  assert (Hd : 0 < Rabs d + 1) by (pose proof (Rabs_pos d); lra).
  assert (Hy : 0 < eps / (Rabs d + 1)) by (apply Rdiv_lt_0_compat; lra).
  assert (H9 : Rabs 0.9 < 1) by (rewrite Rabs_pos_eq; lra).
  destruct (pow_lt_1_zero 0.9 H9 _ Hy) as [N HN].
  exists N. intros n Hn. specialize (HN n Hn).
  rewrite Rabs_mult.
  apply Rle_lt_trans with (eps / (Rabs d + 1) * Rabs d).
  - apply Rmult_le_compat_r; [apply Rabs_pos | lra].
  - unfold Rdiv. rewrite Rmult_assoc.
    assert (Hq : / (Rabs d + 1) * Rabs d < 1).
    { apply (Rmult_lt_reg_l (Rabs d + 1)); [exact Hd |].
      rewrite <- Rmult_assoc, Rinv_r by lra. lra. }
    pose proof (Rabs_pos d). nra.
Qed.

Lemma update_children_length treeState t L children : forall i,
  List.length (update_children treeState t L i children) = List.length children.
Proof.
  induction children as [| c rest IH]; intros i; [reflexivity |].
  cbn [update_children List.length]. now rewrite IH.
Qed.

(** X27: a photo eases toward its target.  With the progress held, each
    frame leaves nine tenths of the distance to the target position and to
    the target scale (1.5 scattered, 0.8 otherwise), so after [n] frames
    [0.9 ^ n] of it is left and the photo comes as close as wanted; it
    always faces the origin.  A pass over the children keeps their number,
    leaves a child without a layout entry alone, and does nothing when no
    photo is uploaded. *)
Theorem photo_follows_target (treeState : TreeState) (t : R) (layout : Layout)
  (child : Object3D) (n : nat) :
  let cur := photo_currentPos layout t in
  let tgt := if TreeState_eqb treeState SCATTERED then 1.5 else 0.8 in
  let c := follow treeState t layout n child in
  (vx (position c) - vx cur = 0.9 ^ n * (vx (position child) - vx cur) /\
   vy (position c) - vy cur = 0.9 ^ n * (vy (position child) - vy cur) /\
   vz (position c) - vz cur = 0.9 ^ n * (vz (position child) - vz cur) /\
   vx (scale c) - tgt = 0.9 ^ n * (vx (scale child) - tgt)) /\
  rotation (follow treeState t layout (S n) child)
  = LookingAt (position (follow treeState t layout (S n) child)) (mkVector3 0 0 0) /\
  (forall eps, 0 < eps ->
     exists N, forall m, (N <= m)%nat ->
       Rabs (vx (position (follow treeState t layout m child)) - vx cur) < eps /\
       Rabs (vy (position (follow treeState t layout m child)) - vy cur) < eps /\
       Rabs (vz (position (follow treeState t layout m child)) - vz cur) < eps) /\
  (forall uploaded L children,
     List.length (update_photos treeState t uploaded L children)
     = List.length children) /\
  (forall L children, update_photos treeState t 0 L children = children) /\
  update_photo treeState t None child = child.
Proof.
  intros cur tgt c.
  split; [exact (follow_closed treeState t layout child n) |].
  split.
  { rewrite follow_S.
    exact (proj2 (proj2 (proj2 (proj2
             (update_photo_step treeState t layout
                (follow treeState t layout n child)))))). }
  split.
  { intros eps Heps.
    destruct (pow09_small (vx (position child) - vx cur) eps Heps) as [Nx Hx].
    destruct (pow09_small (vy (position child) - vy cur) eps Heps) as [Ny Hy].
    destruct (pow09_small (vz (position child) - vz cur) eps Heps) as [Nz Hz].
    exists (Nx + Ny + Nz)%nat. intros m Hm.
    destruct (follow_closed treeState t layout child m) as [Ex [Ey [Ez _]]].
    fold cur in Ex, Ey, Ez. rewrite Ex, Ey, Ez.
    repeat split; [apply Hx | apply Hy | apply Hz]; lia. }
  split.
  { intros uploaded L children. unfold update_photos.
    destruct (0 <? uploaded)%nat; [apply update_children_length | reflexivity]. }
  split; reflexivity.
Qed.

Lemma lerp_to_0 x : lerp x 0 0.1 = 0.9 * x.
Proof. unfold lerp. lra. Qed.

Lemma rotation_step_idle treeState h ro :
  treeState <> SCATTERED \/ h = None ->
  rotation_step treeState h ro
  = mkRotationOffset (0.9 * rot_x ro) (rot_y ro + 0.001).
Proof.
  intros H. unfold rotation_step.
  destruct (TreeState_eqb_spec treeState SCATTERED) as [E | _].
  - destruct H as [H | ->]; [contradiction |]. now rewrite lerp_to_0.
  - now rewrite lerp_to_0.
Qed.

(** X28: without a hand to follow, that is, outside SCATTERED or with no
    hand in the frames, each frame turns the groups by 0.001 about the
    vertical axis and takes a tenth off the tilt: after [n] frames the turn
    has grown by [n * 0.001] and the tilt is [0.9 ^ n] of what it was. *)
Theorem rotation_idles (treeState : TreeState) (hands : list (option (R * R)))
  (ro : RotationOffset)
  (Hidle : treeState <> SCATTERED \/ Forall (fun h => h = None) hands) :
  rotation_run treeState hands ro
  = mkRotationOffset (0.9 ^ List.length hands * rot_x ro)
                     (rot_y ro + INR (List.length hands) * 0.001).
Proof.
  revert ro. induction hands as [| h rest IH]; intros ro.
  - destruct ro as [x y]. unfold rotation_run.
    cbn [fold_left List.length pow INR rot_x rot_y]. f_equal; lra.
  - change (rotation_run treeState (h :: rest) ro)
      with (rotation_run treeState rest (rotation_step treeState h ro)).
    rewrite IH.
    + rewrite rotation_step_idle.
      * cbn [rot_x rot_y List.length pow]. rewrite S_INR. f_equal; ring.
      * destruct Hidle as [H | H]; [now left | right; now inversion H].
    + destruct Hidle as [H | H]; [now left | right; now inversion H].
Qed.

Lemma rotation_idles_witness :
  rotation_run ASSEMBLED [Some (0.2, 0.9); None] (mkRotationOffset 0.5 0)
  = mkRotationOffset (0.9 ^ 2 * 0.5) (0 + INR 2 * 0.001).
Proof.
  assert (H : ASSEMBLED <> SCATTERED
              \/ Forall (fun h : option (R * R) => h = None) [Some (0.2, 0.9); None])
    by (left; discriminate).
  exact (rotation_idles ASSEMBLED [Some (0.2, 0.9); None]
           (mkRotationOffset 0.5 0) H).
Defined.

Lemma rotation_step_tilt treeState h ro :
  hand_in_image h -> Rabs (rot_x ro) <= 0.5 ->
  Rabs (rot_x (rotation_step treeState h ro)) <= 0.5.
Proof.
  intros Hh Hx.
  pose proof (Rle_abs (rot_x ro)) as H1.
  pose proof (Rle_abs (- rot_x ro)) as H2. rewrite Rabs_Ropp in H2.
  apply Rabs_le.
  unfold rotation_step.
  destruct (TreeState_eqb treeState SCATTERED), h as [[hx hy] |];
    cbn [rot_x]; unfold lerp; cbn in Hh; lra.
Qed.

(** X29: the tilt stays small.  With every hand position inside the
    image, a tilt of at most 0.5 in size stays so over any run of frames in
    any scene state; and while a hand is followed in SCATTERED, a frame
    leaves nine tenths of the distance of tilt and turn to their targets,
    [y - 0.5] and [(0.5 - x) * 2]. *)
Theorem rotation_tilt_bounded (treeState : TreeState)
  (hands : list (option (R * R))) (ro : RotationOffset)
  (Hhands : Forall hand_in_image hands) (Htilt : Rabs (rot_x ro) <= 0.5) :
  Rabs (rot_x (rotation_run treeState hands ro)) <= 0.5 /\
  forall hx hy,
    rot_x (rotation_step SCATTERED (Some (hx, hy)) ro) - (hy - 0.5)
    = 0.9 * (rot_x ro - (hy - 0.5)) /\
    rot_y (rotation_step SCATTERED (Some (hx, hy)) ro) - (0.5 - hx) * 2
    = 0.9 * (rot_y ro - (0.5 - hx) * 2).
Proof.
  split.
  - revert ro Htilt. induction Hhands as [| h rest Hh _ IH]; intros ro Htilt;
      [exact Htilt |].
    change (rotation_run treeState (h :: rest) ro)
      with (rotation_run treeState rest (rotation_step treeState h ro)).
    apply IH. now apply rotation_step_tilt.
  - intros hx hy. unfold rotation_step. cbn [TreeState_eqb rot_x rot_y].
    unfold lerp. split; lra.
Qed.

Lemma rotation_tilt_bounded_witness :
  Rabs (rot_x (rotation_run SCATTERED [Some (0, 1); None; Some (1, 0)]
                 initialRotationOffset)) <= 0.5.
Proof.
  assert (Hh : Forall hand_in_image [Some (0, 1); None; Some (1, 0)])
    by (repeat constructor; simpl; lra).
  assert (Ht : Rabs (rot_x initialRotationOffset) <= 0.5)
    by (cbn; rewrite Rabs_R0; lra).
  exact (proj1 (rotation_tilt_bounded SCATTERED _ initialRotationOffset Hh Ht)).
Defined.

(** X30: the moving light circles the axis at distance 8, never more
    than 4 above or below the middle, and is back where it was every
    [20 * PI] seconds. *)
Theorem movingLight_orbit (t : R) :
  axis2 (Experience.movingLight_position t) = 8 * 8 /\
  Rabs (vy (Experience.movingLight_position t)) <= 4 /\
  Experience.movingLight_position (t + 20 * PI) = Experience.movingLight_position t.
Proof.
  unfold Experience.movingLight_position.
  split; [| split].
  - unfold axis2. cbn [vx vz].
    pose proof (sin2_cos2 (t * 0.5)) as H. unfold Rsqr in H. nra.
  - cbn [vy]. pose proof (SIN_bound (t * 0.8)). apply Rabs_le. lra.
  - replace ((t + 20 * PI) * 0.5) with (t * 0.5 + 2 * INR 5 * PI)
      by (simpl INR; lra).
    replace ((t + 20 * PI) * 0.8) with (t * 0.8 + 2 * INR 8 * PI)
      by (simpl INR; lra).
    now rewrite !sin_period, cos_period.
Qed.

End FollowProps.
